(** * Melty: RPC bridge, chat orchestration and git adapter

  A shallow embedding of
  - [webview-ui/src/RpcClient.ts]   (the caller side of the RPC bridge),
  - [services/GitManager.ts]        (the version-control adapter),
  - [HelloWorldPanel.ts]            (the responder side and the chat turn),
  with the properties stated about them.

  Conventions.  An [async] function is modelled by the value its promise
  settles with: [Ok v] for a fulfilled promise, [Throw e] for a rejected
  one.  Where the source uses a promise *without* awaiting it, the model
  keeps the promise object itself as a JavaScript value ([VPromise]), so
  that [===] and [typeof] see what the source sees.  Console output,
  editor notifications and messages posted on the transport are collected
  in effect lists, in program order. *)

From stdpp Require Import gmap strings list functions sorting.

Open Scope string_scope.
Open Scope list_scope.
Open Scope Z_scope.

(** ** JavaScript values, thrown errors, completions *)

Module Js.

(** What a [throw] carries.  [Error] objects have a [message].  Anything
    can be thrown: [null], [undefined], and any other value, which is
    kept through its [String(...)] rendering and its [message] property
    if it has one (a string, as the bridge carries it). *)
Inductive Thrown :=
| JsError (message : string)
| TypeError (message : string)
| ThrownNull
| ThrownUndefined
| NonError (rendering : string) (message : option string).

(** [error instanceof Error ? error.message : String(error)] *)
Definition errorMessage (e : Thrown) : string :=
  match e with
  | JsError m => m
  | TypeError m => m
  | ThrownNull => "null"
  | ThrownUndefined => "undefined"
  | NonError s _ => s
  end.

(** [Error.prototype.toString]: the name alone when the message is
    empty. *)
Definition error_to_string (name message : string) : string :=
  if String.eqb message "" then name else name +:+ ": " +:+ message.

(** [`${error}`] *)
Definition render (e : Thrown) : string :=
  match e with
  | JsError m => error_to_string "Error" m
  | TypeError m => error_to_string "TypeError" m
  | ThrownNull => "null"
  | ThrownUndefined => "undefined"
  | NonError s _ => s
  end.

(** Completion of a (possibly async) computation. *)
Inductive Completion (A : Type) :=
| Ok (v : A)
| Throw (e : Thrown).
Arguments Ok {A} v.
Arguments Throw {A} e.

(** [error.message] read from an arbitrary thrown value.  Reading a
    property of [null] or [undefined] throws; any other value gives its
    [message], [undefined] if it has none. *)
Definition message_field (e : Thrown) : Completion (option string) :=
  match e with
  | JsError m => Ok (Some m)
  | TypeError m => Ok (Some m)
  | ThrownNull =>
      Throw (TypeError "Cannot read properties of null (reading 'message')")
  | ThrownUndefined =>
      Throw (TypeError "Cannot read properties of undefined (reading 'message')")
  | NonError _ m => Ok m
  end.

(** Sequencing ([await c; k]): a rejection skips the continuation. *)
#[export] Instance completion_bind : MBind Completion := λ A B k c,
  match c with
  | Ok v => k v
  | Throw e => Throw e
  end.

#[export] Instance completion_ret : MRet Completion := @Ok.

(** [c.then(f)] with a callback that does not throw. *)
#[export] Instance completion_fmap : FMap Completion := λ A B f c,
  match c with
  | Ok v => Ok (f v)
  | Throw e => Throw e
  end.

(** [promise.catch(h)] *)
Definition catch {A} (c : Completion A) (h : Thrown → Completion A) : Completion A :=
  match c with
  | Ok v => Ok v
  | Throw e => h e
  end.

(** Truthiness of an optional string ([undefined], [null] and [""] are
    falsy). *)
Definition truthy (s : option string) : bool :=
  match s with
  | Some s => negb (String.eqb s "")
  | None => false
  end.

(** The JavaScript values the responder compares and converts.  A
    promise that was not awaited is a value of its own; it remembers how
    it settles (with a string, or with [null]/[undefined]), which no
    synchronous operation can observe. *)
Inductive Value :=
| VUndefined
| VNull
| VBool (b : bool)
| VString (s : string)
| VPromise (settled : Completion (option string)).

(** A [string | undefined] result as a value. *)
Definition of_optional (s : option string) : Value :=
  match s with Some s => VString s | None => VUndefined end.

(** [v === null] *)
Definition is_null (v : Value) : bool :=
  match v with VNull => true | _ => false end.

(** [typeof v] *)
Definition typeof (v : Value) : string :=
  match v with
  | VUndefined => "undefined"
  | VNull => "object"
  | VBool _ => "boolean"
  | VString _ => "string"
  | VPromise _ => "object"
  end.

(** [String(v)], as string concatenation applies it. *)
Definition to_string (v : Value) : string :=
  match v with
  | VUndefined => "undefined"
  | VNull => "null"
  | VBool true => "true"
  | VBool false => "false"
  | VString s => s
  | VPromise _ => "[object Promise]"
  end.

(** Stateful code that may throw: the state is threaded through, and
    survives a throw (what was done before it stays done). *)
Definition M (S A : Type) : Type := S → S * Completion A.

#[export] Instance M_ret {S} : MRet (M S) := λ A v s, (s, Ok v).

#[export] Instance M_bind {S} : MBind (M S) := λ A B k c s,
  match c s with
  | (s', Ok v) => k v s'
  | (s', Throw e) => (s', Throw e)
  end.

Definition throw {S A} (e : Thrown) : M S A := λ s, (s, Throw e).

(** A side-effect-free call that may throw. *)
Definition query {S A} (c : Completion A) : M S A := λ s, (s, c).

Definition gets {S A} (f : S → A) : M S A := λ s, (s, Ok (f s)).

Definition modify {S} (f : S → S) : M S () := λ s, (f s, Ok ()).

(** [try { c } catch (error) { h error }] over stateful code. *)
Definition try_ {S A} (c : M S A) (h : Thrown → M S A) : M S A := λ s,
  match c s with
  | (s', Ok v) => (s', Ok v)
  | (s', Throw e) => h e s'
  end.

End Js.

Export Js.

(** ** RpcClient.ts *)

Module RpcClient.

(** Each [new Promise] yields a fresh promise; it is named by its
    allocation index.  The [resolve]/[reject] pair stored in
    [pendingMessages] is the capability to settle that promise. *)
Abbreviation Promise := nat.

Section client.

(** The wire payloads ([params], [result]) are opaque to the bridge. *)
Context {Payload : Type}.

(** [event.data] as [handleMessage] reads it. *)
Record MessageData := {
  type : string;
  id : Z;
  result : option Payload;
  error : option string;
}.

Inductive Effect :=
| LogSending (id : Z) (method : string)
| PostMessage (id : Z) (method : string) (params : Payload)
| LogReceived (id : Z)
| LogRejecting (id : Z)
| Reject (p : Promise) (reason : string)
| Resolve (p : Promise) (value : option Payload)
| WarnUnknown (id : Z).

Record State := {
  messageId : Z;
  pendingMessages : gmap Z Promise;
  allocated : nat;
}.

(** [private messageId = 0; private pendingMessages = new Map()] *)
Definition init : State :=
  {| messageId := 0; pendingMessages := ∅; allocated := 0%nat |}.

(** [run(method, params)]: returns the promise it created. *)
Definition run (st : State) (method : string) (params : Payload)
  : Promise * State * list Effect :=
  let p := allocated st in
  let id := messageId st + 1 in
  (p,
   {| messageId := id;
      pendingMessages := <[id := p]> (pendingMessages st);
      allocated := S p |},
   [LogSending id method; PostMessage id method params]).

(** [if (message.error) pending.reject(message.error)
     else pending.resolve(message.result)] *)
Definition settle (pending : Promise) (message : MessageData) : Effect :=
  if Js.truthy (error message)
  then Reject pending (default "" (error message))
  else Resolve pending (result message).

(** [this.pendingMessages.delete(id)] *)
Definition delete_pending (id : Z) (st : State) : State :=
  {| messageId := messageId st;
     pendingMessages := delete id (pendingMessages st);
     allocated := allocated st |}.

Definition handleMessage (st : State) (message : MessageData)
  : State * list Effect :=
  if String.eqb (type message) "rpcResponse" then
    match pendingMessages st !! id message with
    | Some pending =>
        let st' := delete_pending (id message) st in
        if Js.truthy (error message)
        then (st', [LogReceived (id message); LogRejecting (id message);
                    settle pending message])
        else (st', [LogReceived (id message); settle pending message])
    | None => (st, [LogReceived (id message); WarnUnknown (id message)])
    end
  else (st, []).

(** What happens to a client over time: the UI issues calls, the
    transport delivers messages, in any interleaving. *)
Inductive Event :=
| Call (method : string) (params : Payload)
| Deliver (message : MessageData).

Definition step (st : State) (ev : Event) : State * list Effect :=
  match ev with
  | Call method params => let '(_, st', eff) := run st method params in (st', eff)
  | Deliver message => handleMessage st message
  end.

Fixpoint exec (st : State) (evs : list Event) : State * list Effect :=
  match evs with
  | [] => (st, [])
  | ev :: evs =>
      let '(st', eff) := step st ev in
      let '(st'', eff') := exec st' evs in
      (st'', eff ++ eff')
  end.

(** The settlements of promise [p] found in an effect list. *)
Definition settles (p : Promise) (e : Effect) : bool :=
  match e with
  | Reject q _ | Resolve q _ => Nat.eqb p q
  | _ => false
  end.

Definition settlements (p : Promise) (effs : list Effect) : list Effect :=
  List.filter (settles p) effs.

(** The first [CallResult] envelope for call [i] among later events. *)
Definition answers (i : Z) (ev : Event) : bool :=
  match ev with
  | Deliver m => String.eqb (type m) "rpcResponse" && Z.eqb (id m) i
  | Call _ _ => false
  end.

Fixpoint first_answer (i : Z) (evs : list Event) : option MessageData :=
  match evs with
  | [] => None
  | Deliver m :: evs =>
      if answers i (Deliver m) then Some m else first_answer i evs
  | Call _ _ :: evs => first_answer i evs
  end.

(** How many of the events answer call [i]. *)
Definition answer_count (i : Z) (evs : list Event) : nat :=
  length (List.filter (answers i) evs).

(** Well-formed client states: ids handed out so far are at most
    [messageId], stored promises were allocated, and no promise is
    stored under two ids. *)
Record wf (st : State) : Prop := {
  wf_ids : ∀ i p, pendingMessages st !! i = Some p → i ≤ messageId st;
  wf_alloc : ∀ i p, pendingMessages st !! i = Some p → (p < allocated st)%nat;
  wf_inj : ∀ i j p, pendingMessages st !! i = Some p →
                    pendingMessages st !! j = Some p → i = j;
}.

End client.
Arguments MessageData : clear implicits.
Arguments Effect : clear implicits.
Arguments Event : clear implicits.
End RpcClient.

(** ** services/GitManager.ts *)

Module GitManager.

(** What the adapter reads off the git extension's objects. *)
Record Commit := {
  hash : string;
  parents : option (list string);
}.

Record Change := {
  uri_fsPath : string;
  gitIgnored : bool;
}.

(** The repository objects of the [vscode.git] extension API, as far as
    the adapter uses them.  Lookups leave the repository as it is;
    mutating calls return the repository they leave behind, also when
    they throw. *)
Class GitApi (R : Type) := {
  rootUri_fsPath : R → string;
  status : R → R * Completion ();
  getCommit : R → string → Completion Commit;
  diffWithHEAD : R → Completion (list Change);
  add : R → list string → R * Completion ();
  state_indexChanges : R → list Change;
  state_workingTreeChanges : R → list Change;
  state_mergeChanges : R → list Change;
  commit : R → string → R * Completion ();
  diff : R → string → Completion string;
  diffBetween : R → string → string → Completion (list Change);
  diffBetweenPath : R → string → string → string → Completion string;
  reset : R → string → bool → R * Completion ();
  createBranch : R → string → bool → R * Completion ();
  checkout : R → string → R * Completion ();
}.

(** Repository objects live in the extension host's heap and are shared
    by reference: [this.repo.sitory] and the entries of
    [git.repositories] may be the same object. *)
Abbreviation Ref := nat.

Inductive Effect :=
| ConsoleError (text : string)
| CallStatus (r : Ref)
| CallAdd (r : Ref) (paths : list string)
| CallCommit (r : Ref) (message : string)
| CallReset (r : Ref) (treeish : string) (hard : bool)
| CallCreateBranch (r : Ref) (name : string)
| CallCheckout (r : Ref) (name : string).

Record World (R : Type) := {
  (** [vscode.extensions.getExtension('vscode.git')]: when present, the
      [repositories] array of its API *)
  gitExtension : option (list Ref);
  heap : Ref → R;
  (** [this.repo] *)
  repo : option Ref;
  workspaceRoot : string;
  effects : list Effect;
}.
Arguments gitExtension {R}.
Arguments heap {R}.
Arguments repo {R}.
Arguments workspaceRoot {R}.
Arguments effects {R}.

Definition newline : string := String (Ascii.ascii_of_nat 10) EmptyString.

Section adapter.
Context {R : Type} `{GitApi R}.

(** [generateCommitMessage] of the backend: an opaque async function. *)
Variable generateCommitMessage : string → Completion string.

Implicit Types (w : World R) (r : Ref).

Definition emit (e : Effect) : M (World R) () :=
  modify (λ w, {| gitExtension := gitExtension w; heap := heap w;
                  repo := repo w; workspaceRoot := workspaceRoot w;
                  effects := effects w ++ [e] |}).

Definition console_error (prefix : string) (error : Thrown) : M (World R) () :=
  emit (ConsoleError (prefix +:+ " " +:+ render error)).

(** A mutating call on the repository object at [r]. *)
Definition mutate (r : Ref) (e : Effect) (op : R → R * Completion ())
  : M (World R) () := λ w,
  let '(x, c) := op (heap w r) in
  ({| gitExtension := gitExtension w; heap := <[r := x]> (heap w);
      repo := repo w; workspaceRoot := workspaceRoot w;
      effects := effects w ++ [e] |}, c).

(** A lookup on the repository object at [r]. *)
Definition ask {A} (r : Ref) (op : R → Completion A) : M (World R) A :=
  λ w, (w, op (heap w r)).

Definition read {A} (r : Ref) (f : R → A) : M (World R) A :=
  λ w, (w, Ok (f (heap w r))).

(** [private async checkInit()]: being [async], it never throws at its
    call site; it returns a promise, rejected when [this.repo] is
    undefined. *)
Definition checkInit (w : World R) : Completion () :=
  match repo w with
  | None => Throw (JsError "Git repository not initialized")
  | Some _ => Ok ()
  end.

(** [this.repo!.sitory]: a property read on [undefined] throws. *)
Definition repo_sitory : M (World R) Ref := λ w,
  match repo w with
  | Some r => (w, Ok r)
  | None => (w, Throw (TypeError
              "Cannot read properties of undefined (reading 'sitory')"))
  end.

Definition set_repo (r : Ref) : M (World R) () :=
  modify (λ w, {| gitExtension := gitExtension w; heap := heap w;
                  repo := Some r; workspaceRoot := workspaceRoot w;
                  effects := effects w |}).

(** [private async init(): Promise<string | undefined>] *)
Definition init : M (World R) (option string) := λ w,
  match gitExtension w with
  | None => (w, Ok (Some "Git extension not found"))
  | Some repositories =>
      if (length repositories =? 0)%nat
      then (w, Ok (Some "No git repositories found"))
      else if String.eqb (workspaceRoot w) ""
      then (w, Ok (Some "No workspace folder found"))
      else
        match List.find (λ r, String.eqb (rootUri_fsPath (heap w r))
                                         (workspaceRoot w)) repositories with
        | None => (w, Ok (Some "No git repository found at workspace root"))
        | Some r =>
            (set_repo r;;
             s ← repo_sitory;
             mutate s (CallStatus s) status;;
             mret None) w
        end
  end.

(** [public async getUdiffFromWorking(): Promise<string>] *)
Definition getUdiffFromWorking : M (World R) string :=
  try_ (w ← gets id;
        let _ := checkInit w in
        s ← repo_sitory;
        ask s (λ x, diff x "HEAD"))
       (λ error,
        console_error "Error getting latest commit hash:" error;;
        mret "").

(** [public async commitLocalChanges(): Promise<number>] *)
Definition commitLocalChanges : M (World R) nat :=
  s ← repo_sitory;
  mutate s (CallStatus s) status;;
  s ← repo_sitory;
  changes ← ask s diffWithHEAD;
  let nonIgnoredChanges := List.filter (λ change, negb (gitIgnored change)) changes in
  s ← repo_sitory;
  let paths := List.map uri_fsPath nonIgnoredChanges in
  mutate s (CallAdd s paths) (λ x, add x paths);;
  s ← repo_sitory;
  indexChanges ← read s state_indexChanges;
  (if (0 <? length indexChanges)%nat then
     udiffPreview ← getUdiffFromWorking;
     message ← query (generateCommitMessage udiffPreview);
     s ← repo_sitory;
     let text := "[via melty] " +:+ message in
     mutate s (CallCommit s text) (λ x, commit x text)
   else mret ());;
  s ← repo_sitory;
  mutate s (CallStatus s) status;;
  mret (length indexChanges).

(** [public async getLatestCommitHash(): Promise<string | undefined>] *)
Definition getLatestCommitHash : M (World R) (option string) :=
  try_ (w ← gets id;
        let _ := checkInit w in
        s ← repo_sitory;
        latestCommit ← ask s (λ x, getCommit x "HEAD");
        mret (Some (hash latestCommit)))
       (λ error,
        console_error "Error getting latest commit hash:" error;;
        mret None).

(** [git.repositories[0]] followed by [.repository]: the extension may
    be absent, the array may be empty. *)
Definition first_repository : M (World R) Ref := λ w,
  match gitExtension w with
  | None => (w, Throw (TypeError
              "Cannot read properties of undefined (reading 'getAPI')"))
  | Some repositories =>
      match repositories with
      | [] => (w, Throw (TypeError
                "Cannot read properties of undefined (reading 'repository')"))
      | r :: _ => (w, Ok r)
      end
  end.

(** [public async undoLastCommit(commitId: string): Promise<string | null>] *)
Definition undoLastCommit (commitId : string) : M (World R) (option string) :=
  try_ (w ← gets id;
        let _ := checkInit w in
        latest ← getLatestCommitHash;
        let isLatest := bool_decide (latest = Some commitId) in
        if negb isLatest
        then mret (Some "The specified commit is not the latest commit. Cannot undo.")
        else
          r ← first_repository;
          mutate r (CallReset r "HEAD~1" true) (λ x, reset x "HEAD~1" true);;
          mret None)
       (λ error,
        console_error "Error undoing last commit:" error;;
        mret (Some ("Error undoing last commit: " +:+ render error))).

(** [public repoIsClean(): boolean] *)
Definition repoIsClean : M (World R) bool :=
  try_ (w ← gets id;
        let _ := checkInit w in
        s ← repo_sitory;
        working ← read s state_workingTreeChanges;
        index ← read s state_indexChanges;
        merge ← read s state_mergeChanges;
        mret ((length working =? 0)%nat && (length index =? 0)%nat
              && (length merge =? 0)%nat))
       (λ error,
        console_error "Error checking if repo is clean:" error;;
        mret false).

(** [public async createBranch(branchName: string): Promise<boolean>] *)
Definition createBranchOp (branchName : string) : M (World R) bool :=
  try_ (w ← gets id;
        let _ := checkInit w in
        s ← repo_sitory;
        mutate s (CallCreateBranch s branchName) (λ x, createBranch x branchName true);;
        mret true)
       (λ error,
        console_error ("Error creating branch " +:+ branchName +:+ ":") error;;
        mret false).

(** [public async checkoutBranch(branchName: string): Promise<boolean>] *)
Definition checkoutBranch (branchName : string) : M (World R) bool :=
  try_ (w ← gets id;
        let _ := checkInit w in
        s ← repo_sitory;
        mutate s (CallCheckout s branchName) (λ x, checkout x branchName);;
        mret true)
       (λ error,
        console_error ("Error switching to branch " +:+ branchName +:+ ":") error;;
        mret false).

(** [public async getCommit(commitSha: string): Promise<any | null>] *)
Definition getCommitOp (commitSha : string) : M (World R) (option Commit) :=
  try_ (w ← gets id;
        let _ := checkInit w in
        s ← repo_sitory;
        c ← ask s (λ x, getCommit x commitSha);
        mret (Some c))
       (λ error,
        console_error ("Error getting commit " +:+ commitSha +:+ ":") error;;
        mret None).

(** [Promise.all(xs.map(f))]: rejects as soon as one of them does. *)
Fixpoint promise_all {A B} (f : A → Completion B) (xs : list A)
  : Completion (list B) :=
  match xs with
  | [] => Ok []
  | x :: xs =>
      match f x, promise_all f xs with
      | Ok y, Ok ys => Ok (y :: ys)
      | Throw e, _ => Throw e
      | _, Throw e => Throw e
      end
  end.

(** [udiffs.join("\n")] *)
Fixpoint join (sep : string) (parts : list string) : string :=
  match parts with
  | [] => ""
  | [p] => p
  | p :: rest => p +:+ sep +:+ join sep rest
  end.

(** [commitObj.parents?.length === 1] *)
Definition hasExactlyOneParent (commitObj : Commit) : bool :=
  match parents commitObj with
  | Some ps => (length ps =? 1)%nat
  | None => false
  end.

(** The [catch] of [getUdiffFromCommit]: it reads the variable [commit]
    as it is when the error arrives. *)
Definition udiff_failed (commit : option string) (error : Thrown) : M (World R) string :=
  console_error ("Error getting diff for commit "
                 +:+ default "undefined" commit +:+ ":") error;;
  mret "".

(** [public async getUdiffFromCommit(commit: string | undefined): Promise<string>].
    The body assigns to [commit]; the one [catch] of the source is written
    once for what can throw before the assignment and once for what can
    throw after it. *)
Definition getUdiffFromCommit (commit : option string) : M (World R) string :=
  try_ (w ← gets id;
        let _ := checkInit w in
        s ← repo_sitory;
        headCommit ← ask s (λ x, catch (Some <$> getCommit x "HEAD")
                                       (λ _, Ok None));
        match headCommit with
        | None => mret ""
        | Some headCommit =>
            let commit := if truthy commit then default "" commit
                          else hash headCommit in
            try_ (s ← repo_sitory;
                  hasOneParent ← ask s (λ x, commitObj ← getCommit x commit;
                                             mret (hasExactlyOneParent commitObj));
                  if negb hasOneParent then mret ""
                  else
                    let baseCommit := commit +:+ "^" in
                    s ← repo_sitory;
                    diff ← ask s (λ x, diffBetween x baseCommit commit);
                    udiffs ← gets (λ w, promise_all (λ change,
                               match repo w with
                               | Some s => diffBetweenPath (heap w s) baseCommit commit
                                                           (uri_fsPath change)
                               | None => Throw (TypeError
                                   "Cannot read properties of undefined (reading 'sitory')")
                               end) diff);
                    udiffs ← query udiffs;
                    mret (join newline udiffs))
                 (udiff_failed (Some commit))
        end)
       (udiff_failed commit).

(** *** Vocabulary for the statements *)

(** The commit [HEAD] of the bound repository, if the adapter is bound
    and the repository has one. *)
Definition head_commit (w : World R) : option Commit :=
  match repo w with
  | Some r =>
      match getCommit (heap w r) "HEAD" with
      | Ok c => Some c
      | Throw _ => None
      end
  | None => None
  end.

(** The current latest commit hash. *)
Definition head_hash (w : World R) : option string := hash <$> head_commit w.

(** The revision [getUdiffFromCommit] is asked about: the given one, or
    [HEAD]'s hash when none is given. *)
Definition target_rev (w : World R) (commit : option string) : option string :=
  if truthy commit then commit else head_hash w.

(** ... and its commit object, where the repository has it. *)
Definition target_commit (w : World R) (commit : option string) : option Commit :=
  match repo w, target_rev w commit with
  | Some r, Some rev =>
      match getCommit (heap w r) rev with
      | Ok c => Some c
      | Throw _ => None
      end
  | _, _ => None
  end.

(** The hard resets among the calls made so far. *)
Definition is_reset (e : Effect) : bool :=
  match e with CallReset _ _ _ => true | _ => false end.

Definition resets (w : World R) : list Effect := List.filter is_reset (effects w).

(** A stateful computation that returns a value whatever the state. *)
Definition never_throws {A} (c : M (World R) A) : Prop :=
  ∀ w, ∃ v, (c w).2 = Ok v.

(** The same world with more effects logged. *)
Definition logged (w : World R) (es : list Effect) : World R :=
  {| gitExtension := gitExtension w; heap := heap w; repo := repo w;
     workspaceRoot := workspaceRoot w; effects := effects w ++ es |}.

End adapter.

(** Unfolds the plumbing of stateful code. *)
Ltac plumb :=
  unfold console_error, emit, mutate, ask, read, repo_sitory, first_repository,
    try_, throw, query, gets, modify, catch, fmap, mbind, mret, M_bind, M_ret,
    completion_fmap, completion_bind, completion_ret in *;
  cbn beta iota zeta delta [fst snd id effects heap repo gitExtension workspaceRoot] in *.

End GitManager.

(** ** HelloWorldPanel.ts *)

Module HelloWorldPanel.

(** *** The task and its conversation *)

Inductive Author := Human | Bot | ErrorTurn.

Record Joule := {
  author : Author;
  content : string;
}.

Definition Conversation := list Joule.

Record Task := {
  id : string;
  name : string;
  conversation : Conversation;
}.

(** Modelled from the spec: [Task.addErrorJoule] is not part of the
    sources at hand.  The conversation is an append-only sequence of
    turns, and a failure is recorded as a turn whose author is Error. *)
Definition addErrorJoule (task : Task) (message : string) : Task :=
  {| id := id task; name := name task;
     conversation := conversation task ++ [{| author := ErrorTurn; content := message |}] |}.

(** Modelled from the spec: [Task.dehydrateForWire] is not part of the
    sources at hand.  A push carries a complete snapshot of the task. *)
Definition dehydrateForWire (task : Task) : Task := task.

(** [dehydratedTask.conversation = partialConversation] *)
Definition with_conversation (dehydratedTask : Task) (c : Conversation) : Task :=
  {| id := id dehydratedTask; name := name dehydratedTask; conversation := c |}.

(** One call of [processPartial] made by [task.respondBot]: the task as
    it is at that moment, and the partial conversation handed over. *)
Record Progress := {
  during : Task;
  partialConversation : Conversation;
}.

(** A whole run of [task.respondBot(processPartial)]: the calls of
    [processPartial] in the order they are made, the task it leaves
    behind, and whether it returned or threw. *)
Record BotRun := {
  progress : list Progress;
  after : Task;
  outcome : Completion ();
}.


(** [Task] and [TaskManager], which the panel only calls. *)
Class TaskBackend := {
  respondHuman : Task → string → Task * Completion ();
  respondBot : Task → BotRun;
  getActiveTaskId : gmap string Task → string;
  deactivate : string → gmap string Task → gmap string Task * Completion (option string);
  activate : string → gmap string Task → gmap string Task * Completion (option string);
}.

(** *** What the host emits *)

(** Pushes of the [WebviewNotifier]. *)
Inductive Push :=
| UpdateTask (task : Task)
| StatusMessage (text : string)
| StatusReset.

(** [message.params], as far as the handlers modelled read it. *)
Record Params := {
  taskId : string;
  text : string;
  commitId : string;
}.

(** What the panel does that can be seen from outside.  The three lines
    the listener logs are kept with the values they interpolate:
    [`[RPC Server] RPC call for ${message.method} with params
    ${JSON.stringify(message.params)}`],
    [`[RPC Server] sending RPC response for ${message.id}
    (${message.method})`] and
    [`[RPC Server] sending RPCresponse for ${message.id} with error
    ${error.message}`]. *)
Inductive Output :=
| PostNotification (push : Push)
| PostRpcResponse (method : string) (id : Z) (result : option Value) (error : option string)
| ShowErrorMessage (text : string)
| ShowInformationMessage (text : string)
| ConsoleWarn (text : string)
| ConsoleLog (text : string)
| LogRpcCall (method : string) (params : Params)
| LogRpcResponse (id : Z) (method : string)
| LogRpcError (id : Z) (message : option string)
| PosthogCapture (errorMessage : string).

(** An incoming message of the webview. *)
Record Message := {
  msg_type : string;
  msg_id : Z;
  msg_method : string;
  msg_params : Params;
}.

Record Panel (R : Type) := {
  git : GitManager.World R;
  (** the active tasks of the [TaskManager], by task id *)
  tasks : gmap string Task;
  outbox : list Output;
}.
Arguments git {R}.
Arguments tasks {R}.
Arguments outbox {R}.

Section panel.
Context {R : Type} `{GitManager.GitApi R} `{TaskBackend}.

(** [config.DEV_MODE] *)
Variable DEV_MODE : bool.

(** The handlers that only forward to collaborators outside these
    sources (file manager, task creation, pull requests, theme). *)
Variable forwarded : string → Params → M (Panel R) Value.

Definition out (o : Output) : M (Panel R) () :=
  modify (λ st, {| git := git st; tasks := tasks st; outbox := outbox st ++ [o] |}).

Definition set_task (k : string) (t : Task) : M (Panel R) () :=
  modify (λ st, {| git := git st; tasks := <[k := t]> (tasks st); outbox := outbox st |}).

(** A call into the [GitManager] singleton. *)
Definition on_git {A} (c : M (GitManager.World R) A) : M (Panel R) A := λ st,
  let '(w, r) := c (git st) in
  ({| git := w; tasks := tasks st; outbox := outbox st |}, r).

(** An async [GitManager] method called and *not* awaited: the call
    cannot throw, the caller holds the promise, and the method runs to
    its end on its own. *)
Definition unawaited (c : M (GitManager.World R) (option string)) : M (Panel R) Value := λ st,
  let '(w, r) := c (git st) in
  ({| git := w; tasks := tasks st; outbox := outbox st |}, Ok (VPromise r)).

(** Modelled from the spec: [WebviewNotifier] is not part of the sources
    at hand.  It is a thin push channel to the one UI target: each call
    posts one message on the transport, which keeps their order. *)
Definition sendNotification (push : Push) : M (Panel R) () :=
  out (PostNotification push).

Definition updateStatusMessage (text : string) : M (Panel R) () :=
  sendNotification (StatusMessage text).

Definition resetStatusMessage : M (Panel R) () :=
  sendNotification StatusReset.

(** [this._taskManager.getActiveTask(taskId)] *)
Definition getActiveTask (taskId : string) : M (Panel R) (option Task) :=
  gets (λ st, tasks st !! taskId).

(** [private async notifyWebviewOfChatError(taskId, message)] *)
Definition notifyWebviewOfChatError (taskId message : string) : M (Panel R) () :=
  task ← getActiveTask taskId;
  match task with
  | None =>
      out (ConsoleWarn ("Couldn't notify webview of error because task "
                        +:+ taskId +:+ " was not active"));;
      throw (TypeError "Cannot read properties of null (reading 'addErrorJoule')")
  | Some task =>
      let task := addErrorJoule task message in
      set_task taskId task;;
      sendNotification (UpdateTask (dehydrateForWire task))
  end.

(** [private async rpcGetGitConfigErrors(): Promise<string>] *)
Definition rpcGetGitConfigErrors : M (Panel R) string :=
  result ← unawaited GitManager.init;
  mret (if String.eqb (typeof result) "string" then to_string result else "").

(** [private async rpcGetLatestCommit(): Promise<string | undefined>] *)
Definition rpcGetLatestCommit : M (Panel R) (option string) :=
  on_git GitManager.getLatestCommitHash.

(** [private async rpcUndoLatestCommit(commitId: string): Promise<void>] *)
Definition rpcUndoLatestCommit (commitId : string) : M (Panel R) () :=
  errMessage ← unawaited (GitManager.undoLastCommit commitId);
  if is_null errMessage
  then out (ShowInformationMessage "Last commit has been undone by hard reset.")
  else out (ShowErrorMessage ("Failed to undo last commit: " +:+ to_string errMessage)).

(** A call into the [TaskManager] that may move tasks in or out of the
    active set. *)
Definition on_tasks {A} (op : gmap string Task → gmap string Task * Completion A)
  : M (Panel R) A := λ st,
  let '(ts, r) := op (tasks st) in
  ({| git := git st; tasks := ts; outbox := outbox st |}, r).

(** [private async rpcDeactivateTask(taskId: string): Promise<boolean>] *)
Definition rpcDeactivateTask (taskId : string) : M (Panel R) bool :=
  errMessage ← on_tasks (deactivate taskId);
  if truthy errMessage then
    out (ShowErrorMessage ("Failed to deactivate task " +:+ taskId +:+ ": "
                           +:+ default "" errMessage));;
    mret false
  else mret false.

(** [private async rpcActivateTask(taskId: string): Promise<boolean>] *)
Definition rpcActivateTask (taskId : string) : M (Panel R) bool :=
  errorMessage ← on_tasks (activate taskId);
  if truthy errorMessage then
    out (ShowErrorMessage ("Failed to activate task " +:+ taskId +:+ ": "
                           +:+ default "" errorMessage));;
    mret false
  else mret true.

(** [processPartial], applied to one partial conversation. *)
Definition processPartial (p : Progress) : M (Panel R) () :=
  let dehydratedTask := dehydrateForWire (during p) in
  sendNotification (UpdateTask (with_conversation dehydratedTask (partialConversation p))).

Fixpoint for_each {A} (f : A → M (Panel R) ()) (xs : list A) : M (Panel R) () :=
  match xs with
  | [] => mret ()
  | x :: xs => f x;; for_each f xs
  end.

(** [private async rpcChatMessage(text: string, taskId: string): Promise<void>] *)
Definition rpcChatMessage (text taskId : string) : M (Panel R) () :=
  updateStatusMessage "Starting up";;
  task ← getActiveTask taskId;
  match task with
  | None =>
      active ← gets (λ st, getActiveTaskId (tasks st));
      throw (JsError ("Tried to chat with an inactive task " +:+ taskId
                      +:+ " (active task is " +:+ active +:+ ")"))
  | Some task =>
      (* human response *)
      let '(task, responded) := respondHuman task text in
      set_task taskId task;;
      query responded;;
      sendNotification (UpdateTask (dehydrateForWire task));;
      (* bot response *)
      let run := respondBot task in
      for_each processPartial (progress run);;
      set_task taskId (after run);;
      query (outcome run);;
      sendNotification (UpdateTask (dehydrateForWire (after run)));;
      resetStatusMessage
  end.

(** The [switch] of [handleRPCCall]. *)
Definition dispatch (method : string) (params : Params) : M (Panel R) Value :=
  if String.eqb method "undoLatestCommit" then
    rpcUndoLatestCommit (commitId params);; mret VUndefined
  else if String.eqb method "getLatestCommit" then
    hash ← rpcGetLatestCommit; mret (of_optional hash)
  else if String.eqb method "chatMessage" then
    rpcChatMessage (text params) (taskId params);; mret VUndefined
  else if String.eqb method "activateTask" then
    ok ← rpcActivateTask (taskId params); mret (VBool ok)
  else if String.eqb method "deactivateTask" then
    ok ← rpcDeactivateTask (taskId params); mret (VBool ok)
  else if String.eqb method "getGitConfigErrors" then
    errors ← rpcGetGitConfigErrors; mret (VString errors)
  else if bool_decide (method ∈ ["getActiveTask"; "listMeltyFiles"; "listWorkspaceFiles";
                                 "addMeltyFile"; "dropMeltyFile"; "createTask";
                                 "listTaskPreviews"; "createPullRequest"; "deleteTask";
                                 "getAssistantDescription"; "getVSCodeTheme"]) then
    forwarded method params
  else throw (JsError ("Unknown RPC method: " +:+ method)).

(** [private async handleRPCCall(method, params): Promise<any>] *)
Definition handleRPCCall (method : string) (params : Params) : M (Panel R) Value :=
  try_ (dispatch method params)
       (λ error,
        let errorMessage := Js.errorMessage error in
        (if String.eqb errorMessage "Cannot read properties of null (reading 'repository')"
         then out (ShowErrorMessage
                "Melty didn't see a git repo in your root directory. Create one?")
         else out (ShowErrorMessage
                ("Melty internal error: " +:+ errorMessage +:+ ". Please try again.")));;
        (if String.eqb method "chatMessage" then
           notifyWebviewOfChatError (taskId params) errorMessage;;
           resetStatusMessage
         else mret ());;
        out (PosthogCapture errorMessage);;
        out (ConsoleLog "posthog event captured!");;
        throw error).

(** The listener installed by [_setWebviewMessageListener].  An error
    thrown from the [.catch] callback is left uncaught; reading
    [error.message] there is the first thing that can throw. *)
Definition onDidReceiveMessage (message : Message) : M (Panel R) () :=
  if String.eqb (msg_type message) "rpc" then
    out (LogRpcCall (msg_method message) (msg_params message));;
    try_ (result ← handleRPCCall (msg_method message) (msg_params message);
          out (LogRpcResponse (msg_id message) (msg_method message));;
          out (PostRpcResponse (msg_method message) (msg_id message) (Some result) None))
         (λ error,
          if DEV_MODE then throw error
          else
            error_message ← query (message_field error);
            out (LogRpcError (msg_id message) error_message);;
            error_message ← query (message_field error);
            out (PostRpcResponse (msg_method message) (msg_id message) None
                                 error_message))
  else mret ().

(** The transport-visible part of the outbox. *)
Definition posted (o : Output) : bool :=
  match o with
  | PostNotification _ | PostRpcResponse _ _ _ _ => true
  | _ => false
  end.

(** The task snapshot a progress push carries, and the push itself. *)
Definition progress_snapshot (p : Progress) : Task :=
  with_conversation (dehydrateForWire (during p)) (partialConversation p).

Definition push_task (t : Task) : Output := PostNotification (UpdateTask t).



End panel.

(** Unfolds the plumbing of stateful code. *)
Ltac plumb :=
  unfold processPartial, updateStatusMessage, resetStatusMessage, sendNotification,
    getActiveTask, out, set_task, on_git, on_tasks, unawaited,
    try_, throw, query, gets, modify, mbind, mret, M_bind, M_ret in *;
  cbn beta iota zeta delta [fst snd git tasks outbox] in *.

End HelloWorldPanel.

(** ** A small concrete setting

  One repository with a linear history and a task backend that echoes,
  used to run the definitions above on concrete inputs. *)

Module Scenario.
Import GitManager HelloWorldPanel.

Record Repo := {
  root : string;
  history : list Commit;   (* newest first *)
  staged : list Change;
  working : list Change;
}.

Definition lookup_rev (x : Repo) (rev : string) : Completion Commit :=
  if String.eqb rev "HEAD" then
    match history x with
    | c :: _ => Ok c
    | [] => Throw (JsError "bad revision 'HEAD'")
    end
  else
    match List.find (λ c, String.eqb (hash c) rev) (history x) with
    | Some c => Ok c
    | None => Throw (JsError ("bad object " +:+ rev))
    end.

Definition hard_reset (x : Repo) : Repo * Completion () :=
  match history x with
  | _ :: (_ :: _) as rest =>
      ({| root := root x; history := rest; staged := []; working := [] |}, Ok ())
  | _ => (x, Throw (JsError "ambiguous argument 'HEAD~1'"))
  end.

Definition stage (x : Repo) (paths : list string) : Repo * Completion () :=
  ({| root := root x; history := history x;
      staged := staged x ++ List.filter (λ c, bool_decide (uri_fsPath c ∈ paths)) (working x);
      working := List.filter (λ c, negb (bool_decide (uri_fsPath c ∈ paths))) (working x) |},
   Ok ()).

Definition record_commit (x : Repo) (message : string) : Repo * Completion () :=
  ({| root := root x;
      history := {| hash := "h:" +:+ message;
                    parents := Some (List.map hash (take 1 (history x))) |} :: history x;
      staged := []; working := working x |},
   Ok ()).

#[export] Instance repo_api : GitApi Repo := {|
  rootUri_fsPath := root;
  status x := (x, Ok ());
  getCommit := lookup_rev;
  diffWithHEAD x := Ok (staged x ++ working x);
  add := stage;
  state_indexChanges := staged;
  state_workingTreeChanges := working;
  state_mergeChanges _ := [];
  commit := record_commit;
  diff _ _ := Ok "diff --git a/a.ts b/a.ts";
  diffBetween _ _ _ := Ok [{| uri_fsPath := "/ws/a.ts"; gitIgnored := false |};
                           {| uri_fsPath := "/ws/b.ts"; gitIgnored := false |}];
  diffBetweenPath _ base rev path := Ok (base +:+ ".." +:+ rev +:+ " " +:+ path);
  reset x _ _ := hard_reset x;
  createBranch x _ _ := (x, Ok ());
  checkout x _ := (x, Ok ());
|}.

Definition c1 : Commit := {| hash := "c1"; parents := Some [] |}.
Definition c2 : Commit := {| hash := "c2"; parents := Some ["c1"] |}.
Definition c3 : Commit := {| hash := "c3"; parents := Some ["c2"; "c1"] |}.

Definition repo_of (h : list Commit) : Repo :=
  {| root := "/ws"; history := h; staged := []; working := [] |}.

(** A host with one repository at the workspace root, the adapter
    bound to it or not. *)
Definition world (h : list Commit) (bound : bool) : World Repo :=
  {| gitExtension := Some [0%nat];
     heap := λ _, repo_of h;
     repo := if bound then Some 0%nat else None;
     workspaceRoot := "/ws";
     effects := [] |}.

Definition commit_message (udiff : string) : Completion string := Ok "update".

(** A task backend: the human turn is appended; the bot streams its
    answer in two steps, and fails when asked to. *)
Definition turn (a : Author) (s : string) : Joule := {| author := a; content := s |}.

Definition say (t : Task) (j : Joule) : Task :=
  {| id := id t; name := name t; conversation := conversation t ++ [j] |}.

Definition bot (t : Task) : BotRun :=
  match List.last (conversation t) (turn Bot "") with
  | {| author := Human; content := "fail" |} =>
      {| progress := [{| during := t;
                         partialConversation := conversation t ++ [turn Bot "I"] |}];
         after := t;
         outcome := Throw (JsError "model unavailable") |}
  | _ =>
      {| progress := [{| during := t;
                         partialConversation := conversation t ++ [turn Bot "Hel"] |};
                      {| during := t;
                         partialConversation := conversation t ++ [turn Bot "Hello"] |}];
         after := say t (turn Bot "Hello");
         outcome := Ok () |}
  end.

#[export] Instance backend : TaskBackend := {|
  respondHuman t text := (say t (turn Human text), Ok ());
  respondBot := bot;
  getActiveTaskId ts := "";
  deactivate k ts := (delete k ts, Ok None);
  activate k ts := (ts, Ok None);
|}.



Definition t1 : Task := {| id := "T1"; name := "first"; conversation := [] |}.

Definition panel (h : list Commit) (bound : bool) : Panel Repo :=
  {| git := world h bound; tasks := {[ "T1" := t1 ]}; outbox := [] |}.

Definition no_forward (method : string) (params : Params) : M (Panel Repo) Value :=
  mret VUndefined.

Definition chat (text : string) : Message :=
  {| msg_type := "rpc"; msg_id := 5; msg_method := "chatMessage";
     msg_params := {| taskId := "T1"; text := text; commitId := "" |} |}.


Definition failing : Task := say t1 (turn Human "fail").

(** A webview client whose payloads are strings. *)
Definition reply (i : Z) (result error : option string) : RpcClient.Event string :=
  RpcClient.Deliver {| RpcClient.type := "rpcResponse"; RpcClient.id := i;
                        RpcClient.result := result; RpcClient.error := error |}.

(** Three calls in flight; the answers come back in reverse order, with
    an answer to a call never made and a duplicate in between. *)
Definition out_of_order : list (RpcClient.Event string) :=
  [RpcClient.Call "getLatestCommit" "{}";
   RpcClient.Call "chatMessage" "{text}";
   RpcClient.Call "listMeltyFiles" "{}";
   reply 3 (Some "files") None;
   reply 9 (Some "stray") None;
   reply 2 None (Some "model unavailable");
   reply 3 (Some "again") None;
   reply 1 (Some "c2") None].

Definition stray : RpcClient.MessageData string :=
  {| RpcClient.type := "rpcResponse"; RpcClient.id := 7;
     RpcClient.result := Some "late"; RpcClient.error := None |}.

Definition one_pending : @RpcClient.State :=
  (RpcClient.run RpcClient.init "chatMessage" "{text}").1.2.

End Scenario.

(** * The rest of the code *)

(** ** RpcClient.ts: what a trace shows *)

Module RpcClientExt.
Import RpcClient.
Section observations.
Context {Payload : Type}.

(** The ids of the [rpc] messages posted, in posting order. *)
Definition posted_ids (effs : list (Effect Payload)) : list Z :=
  omap (λ e, match e with PostMessage i _ _ => Some i | _ => None end) effs.

(** The calls of [resolve] and [reject], in order. *)
Definition is_settlement (e : Effect Payload) : bool :=
  match e with Resolve _ _ | Reject _ _ => true | _ => false end.

(** The number of calls of [run] in a history. *)
Definition calls (evs : list (Event Payload)) : nat :=
  length (List.filter (λ ev, match ev with Call _ _ => true | _ => false end) evs).

End observations.
End RpcClientExt.

(** ** GitManager.ts: vocabulary for further statements *)

Module GitManagerExt.
Import GitManager.
Section observations.
Context {R : Type} `{GitApi R}.

(** What was logged between two worlds. *)
Definition since (w w' : World R) : list Effect :=
  drop (length (effects w)) (effects w').

Definition is_commit (e : Effect) : bool :=
  match e with CallCommit _ _ => true | _ => false end.

Definition is_console (e : Effect) : bool :=
  match e with ConsoleError _ => true | _ => false end.

(** An operation that calls nothing that changes a repository, and leaves
    the binding alone: all it may do is write to the console. *)
Definition read_only {A} (c : M (World R) A) : Prop :=
  ∀ w, ∃ es, (c w).1 = logged w es ∧ Forall (λ e, is_console e = true) es.

(** The four messages [init] reports. *)
Definition init_errors : list string :=
  ["Git extension not found"; "No git repositories found";
   "No workspace folder found"; "No git repository found at workspace root"].

(** [r.rootUri.fsPath === this.workspaceRoot] *)
Definition at_root (w : World R) (r : Ref) : bool :=
  String.eqb (rootUri_fsPath (heap w r)) (workspaceRoot w).

End observations.

(** Runs [commitLocalChanges] through all its outcomes. *)
Ltac walk_commitLocalChanges :=
  unfold commitLocalChanges, getUdiffFromWorking; plumb;
  repeat (first [ rewrite fn_lookup_insert
                | case_match; plumb; simplify_eq ]).

(** Reads off what was logged since the start. *)
Ltac read_log :=
  unfold since; cbn [effects]; rewrite <- ?app_assoc, ?drop_app_length; cbn [app].

End GitManagerExt.

(** ** GitManager.ts: the remaining operations *)

Module GitManagerRest.
Import GitManager.

(** [repository.state.HEAD] and the entries of [repository.state.remotes],
    as far as they are read. *)
Record Head := {
  head_name : option string;
  head_commit_id : option string;
}.

Record Remote := {
  remote_name : string;
  fetchUrl : option string;
  pushUrl : option string;
}.

(** The further calls and state of a repository object that these
    operations use. *)
Class GitApiRest (R : Type) := {
  state_HEAD : R → option Head;
  state_remotes : R → list Remote;
  (** [commit(message, { empty: true })] *)
  commit_allowing_empty : R → string → R * Completion ();
  (** [push(remoteName, branchName, setUpstream)] *)
  push : R → option string → string → bool → R * Completion ();
}.

Inductive Effect :=
| Git (e : GitManager.Effect)
| ConsoleWarn (text : string)
| ConsoleLog (text : string)
| ApplyChangeSet (paths : list string) (root : string)
| CallCommitAllowingEmpty (r : Ref) (message : string)
| CallPush (r : Ref) (remote : option string) (branch : string) (setUpstream : bool).

(** The [GitManager] instance with what is around it: the worlds of the
    operations modelled before, the [melty.remoteName] setting, and
    whether the interval set by the constructor is still running. *)
Record Manager (R : Type) := {
  gitExtension : option (list Ref);
  heap : Ref → R;
  repo : option Ref;
  workspaceRoot : string;
  remoteNameSetting : option string;
  polling : bool;
  log : list Effect;
}.
Arguments gitExtension {R}.
Arguments heap {R}.
Arguments repo {R}.
Arguments workspaceRoot {R}.
Arguments remoteNameSetting {R}.
Arguments polling {R}.
Arguments log {R}.

Section rest.
Context {R : Type} `{GitApi R} `{GitApiRest R}.

(** [types.ChangeSet], of which only the shape is used: per file an
    original and an updated version, in the order [Object.values] lists
    them. *)
Context {MeltyFile : Type}.

Record FileChange := {
  original : MeltyFile;
  updated : MeltyFile;
}.

Record ChangeSet := {
  filesChanged : list (string * FileChange);
}.

(** [files.absolutePath(file, root)] *)
Variable absolutePath : MeltyFile → string → string.

(** [changesets.applyChangeSet(changeSet, root)]: writes the files; what
    it does to the working trees is what the repository objects answer
    afterwards.  It is called without [await] and taken to be
    synchronous: what it throws is caught by the caller. *)
Variable applyChangeSet :
  ChangeSet → string → (Ref → R) → (Ref → R) * Completion ().

Implicit Types (m : Manager R).

(** The world the operations modelled before see. *)
Definition world (m : Manager R) : World R :=
  {| GitManager.gitExtension := gitExtension m; GitManager.heap := heap m;
     GitManager.repo := repo m; GitManager.workspaceRoot := workspaceRoot m;
     GitManager.effects := [] |}.

(** One of those operations, run on the manager. *)
Definition lift {A} (c : M (World R) A) : M (Manager R) A := λ m,
  let '(w, a) := c (world m) in
  ({| gitExtension := GitManager.gitExtension w; heap := GitManager.heap w;
      repo := GitManager.repo w; workspaceRoot := GitManager.workspaceRoot w;
      remoteNameSetting := remoteNameSetting m; polling := polling m;
      log := log m ++ List.map Git (effects w) |}, a).

Definition note (e : Effect) : M (Manager R) () :=
  modify (λ m, {| gitExtension := gitExtension m; heap := heap m; repo := repo m;
                  workspaceRoot := workspaceRoot m;
                  remoteNameSetting := remoteNameSetting m; polling := polling m;
                  log := log m ++ [e] |}).

(** A mutating call of the further API on the repository object at [r]. *)
Definition mutate_rest (r : Ref) (e : Effect) (op : R → R * Completion ())
  : M (Manager R) () := λ m,
  let '(x, c) := op (heap m r) in
  ({| gitExtension := gitExtension m; heap := <[r := x]> (heap m); repo := repo m;
      workspaceRoot := workspaceRoot m;
      remoteNameSetting := remoteNameSetting m; polling := polling m;
      log := log m ++ [e] |}, c).

(** [public getMeltyRoot(): string] *)
Definition getMeltyRoot : M (Manager R) string := gets workspaceRoot.

(** [changesets.applyChangeSet(changeSet, this.getMeltyRoot())] *)
Definition apply_to_disk (changeSet : ChangeSet) : M (Manager R) () := λ m,
  let '(h, c) := applyChangeSet changeSet (workspaceRoot m) (heap m) in
  ({| gitExtension := gitExtension m; heap := h; repo := repo m;
      workspaceRoot := workspaceRoot m;
      remoteNameSetting := remoteNameSetting m; polling := polling m;
      log := log m ++ [ApplyChangeSet (List.map fst (filesChanged changeSet))
                                      (workspaceRoot m)] |}, c).

(** [public async commitChangeSet(changeSet, commitMessage): Promise<string | null>] *)
Definition commitChangeSet (changeSet : ChangeSet) (commitMessage : string)
  : M (Manager R) Value :=
  try_ (m ← gets id;
        let _ := checkInit (world m) in
        s ← lift repo_sitory;
        lift (mutate s (CallStatus s) status);;
        (* check for uncommitted changes *)
        clean ← lift repoIsClean;
        (if negb clean
         then note (ConsoleWarn "Committing changeset despite unclean repo")
         else mret ());;
        apply_to_disk changeSet;;
        s ← lift repo_sitory;
        root ← getMeltyRoot;
        let paths := List.map (λ change, absolutePath (updated change.2) root)
                              (filesChanged changeSet) in
        lift (mutate s (CallAdd s paths) (λ x, add x paths));;
        s ← lift repo_sitory;
        let text := "[by melty] " +:+ commitMessage in
        mutate_rest s (CallCommitAllowingEmpty s text)
                    (λ x, commit_allowing_empty x text);;
        s ← lift repo_sitory;
        lift (mutate s (CallStatus s) status);;
        s ← lift repo_sitory;
        HEAD ← gets (λ m, state_HEAD (heap m s));
        match HEAD with
        | Some HEAD => mret (of_optional (head_commit_id HEAD))
        | None => throw (TypeError
                    "Cannot read properties of undefined (reading 'commit')")
        end)
       (λ error,
        lift (console_error "Error comitting changeset" error);;
        mret VNull).

(** [vscode.workspace.getConfiguration().get('melty.remoteName') || 'origin'] *)
Definition remoteName (m : Manager R) : string :=
  if truthy (remoteNameSetting m) then default "" (remoteNameSetting m) else "origin".

(** [public getMeltyRemote(): { fetchUrl: string, pushUrl: string } | null] *)
Definition getMeltyRemote : M (Manager R) (option (option string * option string)) :=
  remoteName ← gets remoteName;
  try_ (m ← gets id;
        let _ := checkInit (world m) in
        s ← lift repo_sitory;
        remotes ← gets (λ m, state_remotes (heap m s));
        match List.find (λ r, String.eqb (remote_name r) remoteName) remotes with
        | Some remote => mret (Some (fetchUrl remote, pushUrl remote))
        | None => throw (TypeError
                    "Cannot read properties of undefined (reading 'fetchUrl')")
        end)
       (λ error,
        lift (console_error "Error getting origin fetch URL:" error);;
        mret None).

(** [public getCurrentBranch(): string | null] *)
Definition getCurrentBranch : M (Manager R) (option string) :=
  try_ (m ← gets id;
        let _ := checkInit (world m) in
        s ← lift repo_sitory;
        HEAD ← gets (λ m, state_HEAD (heap m s));
        let name := HEAD ≫= head_name in
        mret (if truthy name then name else None))
       (λ error,
        lift (console_error "Error getting current branch:" error);;
        mret None).

(** [public isOnMainBranch(): boolean] *)
Definition isOnMainBranch : M (Manager R) bool :=
  try_ (m ← gets id;
        let _ := checkInit (world m) in
        s ← lift repo_sitory;
        HEAD ← gets (λ m, state_HEAD (heap m s));
        mret (bool_decide (HEAD ≫= head_name = Some "main")))
       (λ error,
        lift (console_error "Error checking if on main branch:" error);;
        mret false).

(** [public async pushToMeltyRemote(branchName: string): Promise<boolean>] *)
Definition pushToMeltyRemote (branchName : string) : M (Manager R) bool :=
  try_ (m ← gets id;
        let _ := checkInit (world m) in
        remote ← getMeltyRemote;
        s ← lift repo_sitory;
        match remote with
        | Some remote =>
            mutate_rest s (CallPush s remote.2 branchName false)
                        (λ x, push x remote.2 branchName false);; (* do not force push *)
            mret true
        | None => throw (TypeError
                    "Cannot read properties of null (reading 'pushUrl')")
        end)
       (λ error,
        lift (console_error ("Error pushing branch " +:+ branchName +:+ ":") error);;
        mret false).

(** *** The constructor and its poller *)

(** [private constructor()], given [workspaceFolders?.[0]?.uri.fsPath]
    and the host as it is. *)
Definition construct (folder : option string) (extension : option (list Ref))
    (objects : Ref → R) (setting : option string) : Completion (Manager R) :=
  if truthy folder then
    Ok {| gitExtension := extension; heap := objects; repo := None;
          workspaceRoot := default "" folder; remoteNameSetting := setting;
          polling := true; log := [] |}
  else Throw (JsError "No workspace folder found").

Definition clearInterval : M (Manager R) () :=
  modify (λ m, {| gitExtension := gitExtension m; heap := heap m; repo := repo m;
                  workspaceRoot := workspaceRoot m;
                  remoteNameSetting := remoteNameSetting m; polling := false;
                  log := log m |}).

(** The callback of [setInterval(..., 1000)]; a cleared interval does not
    fire. *)
Definition tick : M (Manager R) () := λ m,
  if polling m then
    match gitExtension m with
    | Some _ =>
        (clearInterval;;
         err ← lift init;
         match err with
         | None => note (ConsoleLog "Git repository initialized")
         | Some err => note (Git (ConsoleError
                         ("Error initializing git repository: " +:+ err)))
         end) m
    | None => note (ConsoleLog "No git extension found. Polling again in 1s") m
    end
  else (m, Ok ()).

(** What happens around the manager between ticks: the git extension
    gets activated, its repositories appear or change. *)
Inductive HostEvent :=
| Tick
| HostChanged (extension : option (list Ref)) (objects : Ref → R).

Definition host_step (m : Manager R) (ev : HostEvent) : Manager R :=
  match ev with
  | Tick => (tick m).1
  | HostChanged extension objects =>
      {| gitExtension := extension; heap := objects; repo := repo m;
         workspaceRoot := workspaceRoot m;
         remoteNameSetting := remoteNameSetting m; polling := polling m;
         log := log m |}
  end.

Definition host_run (m : Manager R) (evs : list HostEvent) : Manager R :=
  foldl host_step m evs.

(** *** Vocabulary for the statements *)

Definition since (m m' : Manager R) : list Effect :=
  drop (length (log m)) (log m').

Definition is_push (e : Effect) : bool :=
  match e with CallPush _ _ _ _ => true | _ => false end.

Definition is_apply (e : Effect) : bool :=
  match e with ApplyChangeSet _ _ => true | _ => false end.

(** [repoIsClean], read off a repository object. *)
Definition unchanged (x : R) : bool :=
  (length (state_workingTreeChanges x) =? 0)%nat
  && (length (state_indexChanges x) =? 0)%nat
  && (length (state_mergeChanges x) =? 0)%nat.

(** What [commitChangeSet] stages and the message it commits with. *)
Definition staged_paths (changeSet : ChangeSet) (m : Manager R) : list string :=
  List.map (λ change, absolutePath (updated change.2) (workspaceRoot m))
           (filesChanged changeSet).

(** The calls that write: to the disk, the index, the history or a
    remote. *)
Definition is_write (e : Effect) : bool :=
  match e with
  | ApplyChangeSet _ _ | CallCommitAllowingEmpty _ _ | CallPush _ _ _ _
  | Git (CallAdd _ _) | Git (CallCommit _ _) | Git (CallReset _ _ _) => true
  | _ => false
  end.

Definition is_undo (e : Effect) : bool :=
  match e with Git (CallReset _ _ _) | Git (CallCheckout _ _) => true | _ => false end.

(** The remote the setting names. *)
Definition melty_remote (m : Manager R) : option Remote :=
  match repo m with
  | Some r => List.find (λ x, String.eqb (remote_name x) (remoteName m))
                        (state_remotes (heap m r))
  | None => None
  end.

(** The name of the checked-out branch, if the adapter is bound and
    [HEAD] is on a branch. *)
Definition branch (m : Manager R) : option string :=
  match repo m with
  | Some r => state_HEAD (heap m r) ≫= head_name
  | None => None
  end.

End rest.

Arguments ChangeSet : clear implicits.
Arguments FileChange : clear implicits.

(** Reads off what was logged since the start. *)
Ltac read_since :=
  unfold since; cbn [log]; rewrite <- ?app_assoc, ?drop_app_length, ?drop_all;
  cbn [app].

(** Unfolds the plumbing of these operations. *)
Ltac plumb_rest :=
  unfold lift, note, mutate_rest, apply_to_disk, getMeltyRoot, clearInterval,
    world in *;
  GitManager.plumb;
  cbn [fst snd gitExtension heap repo workspaceRoot remoteNameSetting polling log
       List.map app GitManager.gitExtension GitManager.heap GitManager.repo
       GitManager.workspaceRoot GitManager.effects] in *.

(** Runs [commitChangeSet] through all its outcomes. *)
Ltac walk_commitChangeSet :=
  unfold commitChangeSet, repoIsClean; plumb_rest;
  repeat (first [ rewrite fn_lookup_insert
                | case_match; plumb_rest; simplify_eq; plumb_rest; simplify_eq ]).

End GitManagerRest.

(** ** HelloWorldPanel.ts: vocabulary for further statements *)

Module HelloWorldPanelExt.
Import HelloWorldPanel.

(** The method names [handleRPCCall] has a case for. *)
Definition known_methods : list string :=
  ["getActiveTask"; "listMeltyFiles"; "listWorkspaceFiles"; "addMeltyFile";
   "dropMeltyFile"; "undoLatestCommit"; "getLatestCommit"; "chatMessage";
   "createTask"; "listTaskPreviews"; "activateTask"; "deactivateTask";
   "createPullRequest"; "deleteTask"; "getGitConfigErrors";
   "getAssistantDescription"; "getVSCodeTheme"].

(** The text of the editor notification raised for a caught error. *)
Definition error_notice (errorMessage : string) : string :=
  if String.eqb errorMessage "Cannot read properties of null (reading 'repository')"
  then "Melty didn't see a git repo in your root directory. Create one?"
  else "Melty internal error: " +:+ errorMessage +:+ ". Please try again.".

End HelloWorldPanelExt.

(** ** The two ends of the bridge, connected *)

Module Bridge.
Import HelloWorldPanel.

(** What travels: the params of a call one way, the result the other. *)
Inductive Wire :=
| WParams (params : Params)
| WValue (value : Value).

(** [vscode.postMessage({ type: "rpc", id, method, params })] as the host
    receives it. *)
Definition to_host (e : RpcClient.Effect Wire) : option Message :=
  match e with
  | RpcClient.PostMessage i method (WParams params) =>
      Some {| msg_type := "rpc"; msg_id := i; msg_method := method;
              msg_params := params |}
  | _ => None
  end.

(** [webview.postMessage({ type: "rpcResponse", method, id, result | error })]
    as the webview receives it; notifications go to other listeners. *)
Definition to_webview (o : Output) : option (RpcClient.MessageData Wire) :=
  match o with
  | PostRpcResponse method i result error =>
      Some {| RpcClient.type := "rpcResponse"; RpcClient.id := i;
              RpcClient.result := WValue <$> result; RpcClient.error := error |}
  | _ => None
  end.

(** How the promise of a call ends, given how its handler ended: resolved
    with the result; rejected with the message of what was thrown;
    resolved with [undefined] when that has no message or an empty one;
    and not settled at all ([None]) when [null] or [undefined] was
    thrown, whose message cannot be read. *)
Definition expected_settlement (promise : RpcClient.Promise) (outcome : Completion Value)
  : option (RpcClient.Effect Wire) :=
  match outcome with
  | Ok value => Some (RpcClient.Resolve promise (Some (WValue value)))
  | Throw (JsError message) | Throw (TypeError message)
  | Throw (NonError _ (Some message)) =>
      Some (if String.eqb message ""
            then RpcClient.Resolve promise None
            else RpcClient.Reject promise message)
  | Throw (NonError _ None) => Some (RpcClient.Resolve promise None)
  | Throw ThrownNull | Throw ThrownUndefined => None
  end.

Section connected.
Context {R : Type} `{GitManager.GitApi R} `{TaskBackend}.
Variable forwarded : string → Params → M (Panel R) Value.

(** The run of [handleRPCCall] for a message the listener received, and
    how it ends. *)
Definition handler_run (message : Message) (host : Panel R)
  : Panel R * Completion Value :=
  handleRPCCall forwarded (msg_method message) (msg_params message)
    {| git := git host; tasks := tasks host;
       outbox := outbox host ++ [LogRpcCall (msg_method message) (msg_params message)] |}.

Definition handler_outcome (message : Message) (host : Panel R) : Completion Value :=
  (handler_run message host).2.

(** What the host posted for the webview since [host]. *)
Definition responses_since (host host' : Panel R) : list (RpcClient.MessageData Wire) :=
  omap to_webview (drop (length (outbox host)) (outbox host')).

End connected.
End Bridge.

(** ** The concrete setting, extended

  The repository of the setting above with a [HEAD] on [main] and one
  remote, a second repository beside it, a change set, and a task
  backend that refuses an empty message. *)

Module ScenarioExt.
Import GitManager HelloWorldPanel Scenario.

Definition origin : GitManagerRest.Remote :=
  {| GitManagerRest.remote_name := "origin";
     GitManagerRest.fetchUrl := Some "https://example.org/ws.git";
     GitManagerRest.pushUrl := Some "https://example.org/ws.git" |}.

#[export] Instance repo_api_rest : GitManagerRest.GitApiRest Repo := {|
  GitManagerRest.state_HEAD x :=
    Some {| GitManagerRest.head_name := Some "main";
            GitManagerRest.head_commit_id := hash <$> head (history x) |};
  GitManagerRest.state_remotes _ := [origin];
  GitManagerRest.commit_allowing_empty := record_commit;
  GitManagerRest.push x _ _ _ := (x, Ok ());
|}.

(** The adapter of the setting, its poller already stopped. *)
Definition manager (h : list Commit) (bound : bool) : GitManagerRest.Manager Repo :=
  {| GitManagerRest.gitExtension := Some [0%nat];
     GitManagerRest.heap := λ _, repo_of h;
     GitManagerRest.repo := if bound then Some 0%nat else None;
     GitManagerRest.workspaceRoot := "/ws";
     GitManagerRest.remoteNameSetting := None;
     GitManagerRest.polling := false;
     GitManagerRest.log := [] |}.

(** The adapter right after its construction, in a host whose git
    extension is active and has no repository yet. *)
Definition waiting : GitManagerRest.Manager Repo :=
  {| GitManagerRest.gitExtension := Some [];
     GitManagerRest.heap := λ _, repo_of [c1];
     GitManagerRest.repo := None;
     GitManagerRest.workspaceRoot := "/ws";
     GitManagerRest.remoteNameSetting := None;
     GitManagerRest.polling := true;
     GitManagerRest.log := [] |}.

(** Later the repository shows up, and the interval would fire twice
    more. *)
Definition repository_appears : list (@GitManagerRest.HostEvent Repo) :=
  [GitManagerRest.HostChanged (Some [0%nat]) (λ _, repo_of [c1]);
   GitManagerRest.Tick; GitManagerRest.Tick].

(** Files are named by their path below the root. *)
Definition absolute (file root : string) : string := root +:+ "/" +:+ file.

(** Writing the updated files shows as working-tree changes. *)
Definition write_files (changeSet : GitManagerRest.ChangeSet string) (root : string)
    (objects : Ref → Repo) : (Ref → Repo) * Completion () :=
  (λ r, {| root := Scenario.root (objects r); history := history (objects r);
           staged := staged (objects r);
           working := working (objects r)
             ++ List.map (λ change,
                            {| uri_fsPath := absolute
                                 (GitManagerRest.updated change.2) root;
                               gitIgnored := false |})
                         (GitManagerRest.filesChanged changeSet) |},
   Ok ()).

Definition edit_a : GitManagerRest.ChangeSet string :=
  {| GitManagerRest.filesChanged :=
       [("a.ts", {| GitManagerRest.original := "a.ts";
                    GitManagerRest.updated := "a.ts" |})] |}.

(** A working tree with one change to commit and one ignored file. *)
Definition dirty : Repo :=
  {| root := "/ws"; history := [c1]; staged := [];
     working := [{| uri_fsPath := "/ws/a.ts"; gitIgnored := false |};
                 {| uri_fsPath := "/ws/out.log"; gitIgnored := true |}] |}.

(** The adapter bound to that working tree. *)
Definition unclean_manager : GitManagerRest.Manager Repo :=
  {| GitManagerRest.gitExtension := Some [0%nat];
     GitManagerRest.heap := λ _, dirty;
     GitManagerRest.repo := Some 0%nat;
     GitManagerRest.workspaceRoot := "/ws";
     GitManagerRest.remoteNameSetting := None;
     GitManagerRest.polling := false;
     GitManagerRest.log := [] |}.

Definition dirty_world : World Repo :=
  {| gitExtension := Some [0%nat]; heap := λ _, dirty; repo := Some 0%nat;
     workspaceRoot := "/ws"; effects := [] |}.

(** Two repositories in the git extension: a sibling checkout first,
    the one at the workspace root, to which the adapter is bound,
    second. *)
Definition two_repositories : World Repo :=
  {| gitExtension := Some [0%nat; 1%nat];
     heap := λ r, {| root := if (r =? 0)%nat then "/sibling" else "/ws";
                     history := [c2; c1]; staged := []; working := [] |};
     repo := Some 1%nat;
     workspaceRoot := "/ws";
     effects := [] |}.

(** A task backend that refuses an empty message. *)
Definition strict_backend : TaskBackend := {|
  respondHuman t text :=
    if String.eqb text "" then (t, Throw (JsError "empty message"))
    else (say t (turn Human text), Ok ());
  respondBot := bot;
  getActiveTaskId ts := "";
  deactivate k ts := (delete k ts, Ok None);
  activate k ts := (ts, Ok None);
|}.

Definition empty_chat : Params := {| taskId := "T1"; text := ""; commitId := "" |}.

Definition to_other_task : Params := {| taskId := "T9"; text := "hello"; commitId := "" |}.

(** A forwarded handler that throws [null]. *)
Definition throws_null (method : string) (params : Params) : M (Panel Repo) Value :=
  throw ThrownNull.

Definition list_files : Message :=
  {| msg_type := "rpc"; msg_id := 6; msg_method := "listMeltyFiles";
     msg_params := {| taskId := ""; text := ""; commitId := "" |} |}.

(** The call the client has pending, answered twice. *)
Definition answer : RpcClient.MessageData string :=
  {| RpcClient.type := "rpcResponse"; RpcClient.id := 1;
     RpcClient.result := Some "done"; RpcClient.error := None |}.

Definition again : RpcClient.MessageData string :=
  {| RpcClient.type := "rpcResponse"; RpcClient.id := 1;
     RpcClient.result := None; RpcClient.error := Some "too late" |}.

End ScenarioExt.

(** * Properties *)

(** ** The caller side of the bridge *)

Module RpcClientFacts.
Import RpcClient.
Section facts.
Context {Payload : Type}.
Implicit Types (st : @State) (m : MessageData Payload)
               (ev : Event Payload) (evs : list (Event Payload))
               (p : Promise) (i : Z).

Lemma wf_init : wf init.
Proof. split; intros *; cbn; by rewrite lookup_empty. Qed.

Lemma wf_run st method (params : Payload) :
  wf st → wf (run st method params).1.2.
Proof.
  intros [Hids Halloc Hinj]. split; cbn.
  - intros i p. rewrite lookup_insert. case_decide; [lia|].
    intros Hi. apply Hids in Hi. lia.
  - intros i p. rewrite lookup_insert. case_decide.
    + intros [= <-]. lia.
    + intros Hi. apply Halloc in Hi. lia.
  - intros i j p. rewrite !lookup_insert.
    repeat case_decide; subst; try done.
    + intros [= <-] Hj. apply Halloc in Hj. lia.
    + intros Hi [= <-]. apply Halloc in Hi. lia.
    + apply Hinj.
Qed.

Lemma wf_handleMessage st m : wf st → wf (handleMessage st m).1.
Proof.
  intros [Hids Halloc Hinj]. unfold handleMessage.
  destruct (String.eqb _ _); [|done].
  destruct (pendingMessages st !! id m) as [q|] eqn:Hq; [|done].
  assert (wf (delete_pending (id m) st)) as Hwf.
  { split; cbn.
    - intros i p Hi. apply lookup_delete_Some in Hi as [_ Hi]. eauto.
    - intros i p Hi. apply lookup_delete_Some in Hi as [_ Hi]. eauto.
    - intros i j p Hi Hj.
      apply lookup_delete_Some in Hi as [_ Hi].
      apply lookup_delete_Some in Hj as [_ Hj]. eauto. }
  by destruct (truthy _).
Qed.

Lemma wf_step st ev : wf st → wf (step st ev).1.
Proof.
  destruct ev as [method params|m]; intros Hwf.
  - by apply (wf_run st method params).
  - by apply wf_handleMessage.
Qed.

Lemma exec_cons st ev evs :
  exec st (ev :: evs)
  = ((exec (step st ev).1 evs).1, (step st ev).2 ++ (exec (step st ev).1 evs).2).
Proof.
  cbn [exec]. destruct (step st ev) as [st' eff]. cbn [fst snd].
  by destruct (exec st' evs).
Qed.

Lemma exec_app st evs evs' :
  exec st (evs ++ evs')
  = ((exec (exec st evs).1 evs').1, (exec st evs).2 ++ (exec (exec st evs).1 evs').2).
Proof.
  revert st. induction evs as [|ev evs IH]; intros st.
  - cbn. by destruct (exec st evs').
  - rewrite <- app_comm_cons, !exec_cons, IH. cbn. by rewrite app_assoc.
Qed.

Lemma wf_exec st evs : wf st → wf (exec st evs).1.
Proof.
  revert st. induction evs as [|ev evs IH]; intros st Hwf; [done|].
  rewrite exec_cons. cbn. by apply IH, wf_step.
Qed.

Lemma settlements_app p (e1 e2 : list (Effect Payload)) :
  settlements p (e1 ++ e2) = settlements p e1 ++ settlements p e2.
Proof. apply List.filter_app. Qed.

Lemma settles_settle p q m : settles p (settle q m) = Nat.eqb p q.
Proof. unfold settle. by destruct (truthy _). Qed.

(** What one step does to the settlements of a promise: nothing, unless
    the step delivers a response whose id is pending for that promise. *)
Lemma step_settlements st ev p :
  settlements p (step st ev).2
  = match ev with
    | Deliver m =>
        if String.eqb (type m) "rpcResponse" then
          match pendingMessages st !! id m with
          | Some q => if Nat.eqb p q then [settle q m] else []
          | None => []
          end
        else []
    | Call _ _ => []
    end.
Proof.
  destruct ev as [method params|m]; cbn; [done|].
  unfold handleMessage. destruct (String.eqb _ _); [|done].
  destruct (pendingMessages st !! id m) as [q|]; [|done].
  destruct (truthy (error m)); cbn; rewrite settles_settle;
    by destruct (Nat.eqb p q).
Qed.

(** The state one step leaves behind. *)
Lemma step_state st ev :
  (step st ev).1
  = match ev with
    | Deliver m =>
        if String.eqb (type m) "rpcResponse" then
          match pendingMessages st !! id m with
          | Some _ => delete_pending (id m) st
          | None => st
          end
        else st
    | Call method params => (run st method params).1.2
    end.
Proof.
  destruct ev as [method params|m]; cbn; [done|].
  unfold handleMessage. destruct (String.eqb _ _); [|done].
  destruct (pendingMessages st !! id m); [|done].
  by destruct (truthy _).
Qed.

Lemma allocated_step st ev : (allocated st ≤ allocated (step st ev).1)%nat.
Proof.
  rewrite step_state. destruct ev as [method params|m]; cbn; [lia|].
  destruct (String.eqb _ _); [|done].
  by destruct (pendingMessages st !! id m).
Qed.

Lemma allocated_exec st evs : (allocated st ≤ allocated (exec st evs).1)%nat.
Proof.
  revert st. induction evs as [|ev evs IH]; intros st; [done|].
  rewrite exec_cons. cbn [fst]. etrans; [apply allocated_step|apply IH].
Qed.

(** A promise that is not stored in the pending map, and is not a future
    one either, is never settled again. *)
Lemma exec_untracked st evs p :
  wf st → (p < allocated st)%nat →
  (∀ i, pendingMessages st !! i ≠ Some p) →
  settlements p (exec st evs).2 = [].
Proof.
  revert st. induction evs as [|ev evs IH]; intros st Hwf Hp Hno; [done|].
  rewrite exec_cons. cbn [fst snd]. rewrite settlements_app, step_settlements.
  rewrite IH; [| by apply wf_step | pose proof (allocated_step st ev); lia |].
  - rewrite app_nil_r. destruct ev as [|m]; [done|].
    destruct (String.eqb _ _); [|done].
    destruct (pendingMessages st !! id m) as [q|] eqn:Hq; [|done].
    destruct (Nat.eqb_spec p q) as [->|]; [|done]. by destruct (Hno (id m)).
  - intros i. rewrite step_state. destruct ev as [method params|m]; cbn.
    + rewrite lookup_insert. case_decide; [|apply Hno].
      intros [= Heq]. lia.
    + destruct (String.eqb _ _); [|apply Hno].
      destruct (pendingMessages st !! id m) as [q|]; [|apply Hno].
      cbn. intros Hi. apply lookup_delete_Some in Hi as [_ Hi]. by apply (Hno i).
Qed.

(** A promise that has not been created yet is not settled. *)
Lemma exec_unallocated st evs p :
  wf st → (allocated (exec st evs).1 ≤ p)%nat →
  settlements p (exec st evs).2 = [].
Proof.
  revert st. induction evs as [|ev evs IH]; intros st Hwf Hp; [done|].
  rewrite exec_cons in Hp |- *. cbn [fst snd] in *.
  rewrite settlements_app, step_settlements, IH; [| by apply wf_step | done].
  rewrite app_nil_r. destruct ev as [|m]; [done|].
  destruct (String.eqb _ _); [|done].
  destruct (pendingMessages st !! id m) as [q|] eqn:Hq; [|done].
  destruct (Nat.eqb_spec p q) as [->|]; [|done].
  apply (wf_alloc _ Hwf) in Hq.
  pose proof (allocated_step st (Deliver m)).
  pose proof (allocated_exec (step st (Deliver m)).1 evs). lia.
Qed.

(** A pending promise is settled by the first response that carries its
    id, and by nothing else. *)
Lemma exec_tracked st evs i p :
  wf st → pendingMessages st !! i = Some p →
  settlements p (exec st evs).2
  = match first_answer i evs with
    | Some r => [settle p r]
    | None => []
    end.
Proof.
  revert st. induction evs as [|ev evs IH]; intros st Hwf Hi; [done|].
  rewrite exec_cons. cbn [fst snd]. rewrite settlements_app, step_settlements.
  pose proof (wf_step st ev Hwf) as Hwf'. rewrite step_state in Hwf' |- *.
  destruct ev as [method params|m].
  - cbn [first_answer app]. apply IH; [done|].
    cbn. rewrite lookup_insert_ne; [done|].
    apply (wf_ids _ Hwf) in Hi. lia.
  - cbn [first_answer answers].
    destruct (String.eqb (type m) "rpcResponse"); cbn [andb]; [|by apply IH].
    destruct (Z.eqb_spec (id m) i) as [Heq|Hne].
    + rewrite <- Heq in Hi. rewrite Hi in Hwf' |- *. cbv beta iota.
      rewrite Nat.eqb_refl.
      rewrite exec_untracked; [done|done| |].
      * by apply (wf_alloc _ Hwf) in Hi.
      * intros j Hj. cbn in Hj.
        apply lookup_delete_Some in Hj as [Hij Hj].
        by pose proof (wf_inj _ Hwf _ _ _ Hi Hj).
    + destruct (pendingMessages st !! id m) as [q|] eqn:Hq; [|by apply IH].
      destruct (Nat.eqb_spec p q) as [->|].
      { by pose proof (wf_inj _ Hwf _ _ _ Hi Hq). }
      cbn [app]. apply IH; [done|].
      cbn. by rewrite lookup_delete_ne.
Qed.

(** C1.  Take any history of the client: calls issued through [run] and
    messages delivered, in any interleaving and any order.  The promise
    returned by a call is settled by the first [rpcResponse] delivered
    after the call that carries the id sent with the call, with the
    error or result of that very envelope, and it is settled by nothing
    else: exactly once when such a response arrives, however the
    responses to other calls, duplicates or unknown ids are ordered
    around it. *)
Theorem run_settles_exactly_once pre post method (params : Payload) :
  let st := (exec init pre).1 in
  let promise := (run st method params).1.1 in
  let call_id := messageId (run st method params).1.2 in
  settlements promise (exec init (pre ++ Call method params :: post)).2
  = match first_answer call_id post with
    | Some response => [settle promise response]
    | None => []
    end.
Proof.
  intros st promise call_id.
  pose proof (wf_exec init pre wf_init) as Hwf. fold st in Hwf.
  rewrite exec_app, exec_cons. cbn [fst snd].
  rewrite !settlements_app.
  rewrite exec_unallocated; [|apply wf_init|by subst promise st; cbn].
  rewrite step_settlements. cbn [app].
  apply exec_tracked.
  - apply (wf_run _ method params Hwf).
  - cbn. by rewrite lookup_insert_eq.
Qed.

(** The id a call is stored under is the one it posts on the wire. *)
Lemma run_posts_its_id st method (params : Payload) :
  let '(promise, st', effects) := run st method params in
  pendingMessages st' !! messageId st' = Some promise
  ∧ effects = [LogSending (messageId st') method;
               PostMessage (messageId st') method params].
Proof. cbn. by rewrite lookup_insert_eq. Qed.

Lemma answer_count_perm i evs evs' :
  evs ≡ₚ evs' → answer_count i evs = answer_count i evs'.
Proof.
  unfold answer_count. induction 1 as [|ev ?? _ IH|ev ev' ?|??? _ IH1 _ IH2]; cbn.
  - done.
  - destruct (answers i ev); cbn; by rewrite IH.
  - by destruct (answers i ev), (answers i ev').
  - by rewrite IH1.
Qed.

Lemma first_answer_cons i ev evs :
  first_answer i (ev :: evs)
  = match ev with
    | Deliver m => if answers i ev then Some m else first_answer i evs
    | Call _ _ => first_answer i evs
    end.
Proof. by destruct ev. Qed.

(** With at most one answer to a call among the events, the order of the
    events does not matter to which answer comes first. *)
Lemma first_answer_perm i evs evs' :
  evs ≡ₚ evs' → (answer_count i evs ≤ 1)%nat →
  first_answer i evs = first_answer i evs'.
Proof.
  induction 1 as [|ev evs evs' Hp IH|ev ev' evs|evs evs' evs'' Hp IH1 _ IH2];
    intros Hcount.
  - done.
  - rewrite !first_answer_cons. unfold answer_count in *. cbn [List.filter] in Hcount.
    destruct ev as [|m]; [by apply IH|].
    destruct (answers i (Deliver m)); [done|by apply IH].
  - rewrite !first_answer_cons. unfold answer_count in Hcount.
    cbn [List.filter] in Hcount.
    destruct ev as [|m], ev' as [|m']; try done;
      destruct (answers i (Deliver m)) eqn:Hm; try done;
      destruct (answers i (Deliver m')) eqn:Hm'; try done.
    cbn in Hcount. lia.
  - rewrite IH1 by done. apply IH2. by rewrite <- (answer_count_perm i evs evs').
Qed.

(** Arrival order: if what is delivered after the call holds at most one
    response to it, delivering the same events in any other order settles
    the call's promise in the same way. *)
Corollary settlement_independent_of_arrival_order pre post post' method (params : Payload) :
  post ≡ₚ post' →
  let st := (exec init pre).1 in
  let promise := (run st method params).1.1 in
  let call_id := messageId (run st method params).1.2 in
  (answer_count call_id post ≤ 1)%nat →
  settlements promise (exec init (pre ++ Call method params :: post)).2
  = settlements promise (exec init (pre ++ Call method params :: post')).2.
Proof.
  intros Hperm st promise call_id Hone.
  pose proof (wf_exec init pre wf_init) as Hwf.
  rewrite !exec_app, !exec_cons. cbn [fst snd]. rewrite !settlements_app.
  do 2 f_equal.
  rewrite !(exec_tracked _ _ call_id promise);
    [by rewrite (first_answer_perm _ _ _ Hperm Hone) | | | |];
    first [ apply (wf_run _ method params Hwf) | cbn; by rewrite lookup_insert_eq ].
Qed.

(** C2.  A [rpcResponse] whose id is not pending is dropped: the handler
    returns normally, it only logs and warns, the client state (so every
    pending entry) is the one before, and whatever happens afterwards
    happens as if the message had never arrived. *)
Theorem unknown_response_dropped st m :
  type m = "rpcResponse" →
  pendingMessages st !! id m = None →
  handleMessage st m = (st, [LogReceived (id m); WarnUnknown (id m)])
  ∧ ∀ evs,
      exec st (Deliver m :: evs)
      = ((exec st evs).1,
         [LogReceived (id m); WarnUnknown (id m)] ++ (exec st evs).2).
Proof.
  intros Htype Hnone.
  assert (handleMessage st m = (st, [LogReceived (id m); WarnUnknown (id m)])) as Hdrop.
  { unfold handleMessage. by rewrite Htype, Hnone. }
  split; [done|]. intros evs. rewrite exec_cons. cbn [step]. by rewrite Hdrop.
Qed.

End facts.
End RpcClientFacts.

(** ** The version-control adapter *)

Module GitManagerFacts.
Import GitManager.

Section facts.
Context {R : Type} `{GitApi R}.
Variable generateCommitMessage : string → Completion string.
Implicit Types (w : World R).

Lemma logged_nil w : logged w [] = w.
Proof. destruct w. unfold logged. cbn. by rewrite app_nil_r. Qed.

(** [getLatestCommitHash] answers with the hash of [HEAD], or with
    [undefined]; it does not throw and only ever logs. *)
Lemma getLatestCommitHash_spec w :
  ∃ es, getLatestCommitHash w = (logged w es, Ok (head_hash w))
        ∧ Forall (λ e, is_reset e = false) es.
Proof.
  unfold getLatestCommitHash, head_hash, head_commit. plumb.
  destruct (repo w) as [r|].
  - destruct (getCommit (heap w r) "HEAD") as [c|e].
    + exists []. by rewrite logged_nil.
    + eexists [_]. split; [reflexivity|]. by repeat constructor.
  - eexists [_]. split; [reflexivity|]. by repeat constructor.
Qed.

Lemma no_resets es :
  Forall (λ e, is_reset e = false) es → List.filter is_reset es = [].
Proof. induction 1 as [|e es He _ IH]; [done|]. cbn. by rewrite He. Qed.

Lemma resets_logged w es :
  Forall (λ e, is_reset e = false) es → resets (logged w es) = resets w.
Proof.
  intros Hes. unfold resets, logged. cbn [effects].
  rewrite List.filter_app, (no_resets es) by done. apply app_nil_r.
Qed.

(** C6.  [undoLastCommit commitId] calls the hard reset only when
    [commitId] is the current latest commit hash; when it is, the reset
    [HEAD~1] is issued on the extension's first repository and the
    result is [null] exactly when that reset went through.  For a stale
    [commitId] the result is the refusal message, no reset is issued,
    no repository object is touched, and [HEAD] is what it was. *)
Theorem undoLastCommit_guard commitId w :
  let w' := (undoLastCommit commitId w).1 in
  let result := (undoLastCommit commitId w).2 in
  (resets w' ≠ resets w → head_hash w = Some commitId)
  ∧ (∀ r rest,
       head_hash w = Some commitId → gitExtension w = Some (r :: rest) →
       resets w' = resets w ++ [CallReset r "HEAD~1" true]
       ∧ heap w' = <[r := (reset (heap w r) "HEAD~1" true).1]> (heap w)
       ∧ (result = Ok None ↔ (reset (heap w r) "HEAD~1" true).2 = Ok ()))
  ∧ (head_hash w ≠ Some commitId →
       result = Ok (Some "The specified commit is not the latest commit. Cannot undo.")
       ∧ heap w' = heap w ∧ repo w' = repo w
       ∧ resets w' = resets w ∧ head_hash w' = head_hash w).
Proof.
  destruct (getLatestCommitHash_spec w) as (es & Hlatest & Hes).
  assert (head_hash w ≠ Some commitId →
          undoLastCommit commitId w
          = (logged w es,
             Ok (Some "The specified commit is not the latest commit. Cannot undo.")))
    as Hstale.
  { intros Hne. unfold undoLastCommit. plumb. rewrite Hlatest.
    by rewrite bool_decide_eq_false_2. }
  cbv zeta. split; [|split].
  - intros Hresets. destruct (decide (head_hash w = Some commitId)) as [|Hne]; [done|].
    rewrite (Hstale Hne) in Hresets. cbn [fst] in Hresets.
    by rewrite resets_logged in Hresets.
  - intros r rest Hhead Hext. unfold undoLastCommit. plumb. rewrite Hlatest.
    rewrite bool_decide_eq_true_2 by done. cbn [negb logged gitExtension].
    rewrite Hext. cbn [logged heap effects].
    destruct (reset (heap w r) "HEAD~1" true) as [x [[]|e]]; plumb.
    + split_and!; [|done|done].
      unfold resets. cbn [effects]. rewrite !List.filter_app, (no_resets es) by done.
      by rewrite app_nil_r.
    + split_and!; [|done|by split].
      unfold resets. cbn [effects]. rewrite !List.filter_app, (no_resets es) by done.
      cbn. by rewrite !app_nil_r.
  - intros Hne. rewrite (Hstale Hne). cbn [fst snd].
    split_and!; try done. by apply resets_logged.
Qed.

Lemma hasExactlyOneParent_true c :
  hasExactlyOneParent c = true ↔ ∃ p, parents c = Some [p].
Proof.
  unfold hasExactlyOneParent. destruct (parents c) as [[|p [|q ps]]|]; cbn;
    split; try done; try (by intros [? [=]]). by exists p.
Qed.

(** C7.  [getUdiffFromCommit] answers with the empty string, and does
    not throw, when the repository has no [HEAD] commit yet, and when
    the commit asked about has no parent or several; whenever its
    answer is not the empty string, the commit has exactly one
    parent. *)
Theorem getUdiffFromCommit_boundaries commit w :
  let result := (getUdiffFromCommit commit w).2 in
  (head_commit w = None → result = Ok "")
  ∧ (∀ c, target_commit w commit = Some c →
          (∀ p, parents c ≠ Some [p]) → result = Ok "")
  ∧ (result ≠ Ok "" →
     ∃ c p, target_commit w commit = Some c ∧ parents c = Some [p]).
Proof.
  cbv zeta. unfold target_commit, target_rev, head_hash, head_commit, getUdiffFromCommit.
  plumb. destruct (repo w) as [r|] eqn:Hrepo; plumb; [|by split_and!].
  destruct (getCommit (heap w r) "HEAD") as [hc|e] eqn:Hhead; cbn; [|by split_and!].
  set (rev := if truthy commit then default "" commit else hash hc).
  assert ((if truthy commit then commit else Some (hash hc)) = Some rev) as ->.
  { subst rev. by destruct commit as [s|]; cbn; [destruct (String.eqb s "")|]. }
  rewrite !Hrepo. plumb.
  destruct (getCommit (heap w r) rev) as [c|e] eqn:Hrev; plumb; [|by split_and!].
  destruct (hasExactlyOneParent c) eqn:Hone; plumb.
  - apply hasExactlyOneParent_true in Hone as [p Hp].
    split_and!; [done| |by exists c, p].
    intros ? [= <-] Hno. by destruct (Hno p).
  - split_and!; done.
Qed.

(** C5 (the operation that breaks the contract).  Called before the
    adapter is bound to a repository, [commitLocalChanges] does not
    return a sentinel: its promise is rejected with the [TypeError] of
    reading [sitory] off [undefined], and nothing was done. *)
Theorem commitLocalChanges_throws_before_init ext hp root effs :
  let w := {| gitExtension := ext; heap := hp; repo := None;
              workspaceRoot := root; effects := effs |} in
  commitLocalChanges generateCommitMessage w
  = (w, Throw (TypeError "Cannot read properties of undefined (reading 'sitory')")).
Proof. done. Qed.

(** ... and after binding, a failure of the first git call is passed on
    to the caller as it is. *)
Lemma commitLocalChanges_passes_failures_on w r e :
  repo w = Some r → (status (heap w r)).2 = Throw e →
  (commitLocalChanges generateCommitMessage w).2 = Throw e.
Proof.
  intros Hrepo Hstatus. unfold commitLocalChanges. plumb. rewrite Hrepo. plumb.
  destruct (status (heap w r)) as [x c]. cbn in Hstatus. by subst c.
Qed.

(** The operations written as [try { ... } catch { return sentinel }]
    do keep the contract: whatever the state, they return a value. *)
Lemma try_never_throws {A} (c : M (World R) A) prefix (sentinel : Thrown → A) :
  never_throws (try_ c (λ error, console_error prefix error;; mret (sentinel error))).
Proof. intros w. plumb. destruct (c w) as [w' [v|e]]; eauto. Qed.

Lemma wrapped_operations_never_throw :
  never_throws getLatestCommitHash
  ∧ (∀ commitId, never_throws (undoLastCommit commitId))
  ∧ (∀ commit, never_throws (getUdiffFromCommit commit))
  ∧ never_throws getUdiffFromWorking
  ∧ never_throws repoIsClean
  ∧ (∀ branchName, never_throws (createBranchOp branchName))
  ∧ (∀ branchName, never_throws (checkoutBranch branchName))
  ∧ (∀ commitSha, never_throws (getCommitOp commitSha)).
Proof.
  split_and!;
    first [ apply (try_never_throws _ _ (λ _, _))
          | intros x; apply (try_never_throws _ _ (λ _, _))
          | intros x; apply try_never_throws ].
Qed.

End facts.
End GitManagerFacts.

(** ** The responder side and the chat turn *)

Module HelloWorldPanelFacts.
Import HelloWorldPanel.

Section facts.
Context {R : Type} `{GitManager.GitApi R} `{TaskBackend}.
Variable DEV_MODE : bool.
Variable forwarded : string → Params → M (Panel R) Value.
Implicit Types (st : Panel R) (t : Task).

(** C9.  Whatever the commit id and the repository, the handler of
    [undoLatestCommit] shows the failure notification, with the promise
    rendered into its text, and never the success notification; the
    undo itself runs all the same. *)
Theorem rpcUndoLatestCommit_always_reports_failure commitId st :
  rpcUndoLatestCommit commitId st
  = ({| git := (GitManager.undoLastCommit commitId (git st)).1;
        tasks := tasks st;
        outbox := outbox st
          ++ [ShowErrorMessage "Failed to undo last commit: [object Promise]"] |},
     Ok ()).
Proof.
  unfold rpcUndoLatestCommit. plumb.
  by destruct (GitManager.undoLastCommit commitId (git st)).
Qed.

(** C10.  Whatever the repository state, the handler of
    [getGitConfigErrors] answers with the empty string: what it tests is
    the promise, whose [typeof] is not ["string"]; [init] runs, and the
    message it may settle with is not looked at. *)
Theorem rpcGetGitConfigErrors_always_empty st :
  rpcGetGitConfigErrors st
  = ({| git := (GitManager.init (git st)).1;
        tasks := tasks st; outbox := outbox st |},
     Ok "").
Proof.
  unfold rpcGetGitConfigErrors. plumb.
  by destruct (GitManager.init (git st)).
Qed.

(** C4 (the handler as written).  [rpcDeactivateTask] never answers
    [true]: when [TaskManager.deactivate] reports no error it answers
    [false] as well. *)
Theorem rpcDeactivateTask_never_true taskId st :
  (rpcDeactivateTask taskId st).2 ≠ Ok true.
Proof.
  unfold rpcDeactivateTask. plumb.
  destruct (deactivate taskId (tasks st)) as [ts [errMessage|e]]; [|done].
  by destruct (truthy errMessage).
Qed.

Lemma rpcDeactivateTask_without_error taskId st ts :
  deactivate taskId (tasks st) = (ts, Ok None) →
  rpcDeactivateTask taskId st
  = ({| git := git st; tasks := ts; outbox := outbox st |}, Ok false).
Proof. intros Hd. unfold rpcDeactivateTask. plumb. by rewrite Hd. Qed.

(** The sibling handler does answer [true] in the same situation. *)
Lemma rpcActivateTask_without_error taskId st ts :
  activate taskId (tasks st) = (ts, Ok None) →
  rpcActivateTask taskId st
  = ({| git := git st; tasks := ts; outbox := outbox st |}, Ok true).
Proof. intros Ha. unfold rpcActivateTask. plumb. by rewrite Ha. Qed.

(** The progress pushes leave in the order [respondBot] produced them. *)
Lemma for_each_processPartial ps st :
  for_each processPartial ps st
  = ({| git := git st; tasks := tasks st;
        outbox := outbox st ++ List.map (λ p, push_task (progress_snapshot p)) ps |},
     Ok ()).
Proof.
  revert st. induction ps as [|p ps IH]; intros st.
  - cbn. plumb. rewrite app_nil_r. by destruct st.
  - cbn [for_each List.map]. plumb. rewrite IH. cbn [git tasks outbox].
    by rewrite <- app_assoc.
Qed.

(** The chat turn, once the human message is in: what is posted, what
    the task becomes, and how the turn ends. *)
Lemma rpcChatMessage_run text taskId st t t1 :
  tasks st !! taskId = Some t →
  respondHuman t text = (t1, Ok ()) →
  let run := respondBot t1 in
  rpcChatMessage text taskId st
  = ({| git := git st;
        tasks := <[taskId := after run]> (tasks st);
        outbox := outbox st
          ++ [PostNotification (StatusMessage "Starting up"); push_task t1]
          ++ List.map (λ p, push_task (progress_snapshot p)) (progress run)
          ++ match outcome run with
             | Ok _ => [push_task (after run); PostNotification StatusReset]
             | Throw _ => []
             end |},
     outcome run).
Proof.
  intros Ht Hh run. unfold rpcChatMessage. plumb. rewrite Ht, Hh. plumb.
  rewrite for_each_processPartial. cbn [git tasks outbox]. fold run.
  rewrite insert_insert_eq.
  destruct (outcome run) as [[]|e]; cbn [dehydrateForWire];
    rewrite <- ?app_assoc; cbn [app]; [done|].
  by rewrite app_nil_r.
Qed.

Lemma dispatch_chatMessage params st :
  dispatch forwarded "chatMessage" params st
  = (rpcChatMessage (text params) (taskId params);; mret VUndefined) st.
Proof. done. Qed.

(** The failed chat call, in full. *)
Lemma handleRPCCall_chat_failure params st t t1 e :
  tasks st !! taskId params = Some t →
  respondHuman t (text params) = (t1, Ok ()) →
  outcome (respondBot t1) = Throw e →
  let run := respondBot t1 in
  let failed := addErrorJoule (after run) (errorMessage e) in
  ∃ notice,
    handleRPCCall forwarded "chatMessage" params st
    = ({| git := git st;
          tasks := <[taskId params := failed]> (tasks st);
          outbox := outbox st
            ++ [PostNotification (StatusMessage "Starting up"); push_task t1]
            ++ List.map (λ p, push_task (progress_snapshot p)) (progress run)
            ++ [ShowErrorMessage notice;
                push_task failed;
                PostNotification StatusReset;
                PosthogCapture (errorMessage e);
                ConsoleLog "posthog event captured!"] |},
       Throw e).
Proof.
  intros Ht Hh He run failed. subst run failed.
  destruct (String.eqb (errorMessage e)
              "Cannot read properties of null (reading 'repository')") eqn:Hnotice;
    eexists; unfold handleRPCCall; unfold try_ at 1;
    rewrite dispatch_chatMessage; unfold mbind at 1, M_bind at 1;
    rewrite (rpcChatMessage_run _ _ _ t t1 Ht Hh), He;
    unfold notifyWebviewOfChatError; rewrite Hnotice, String.eqb_refl; plumb;
    rewrite lookup_insert_eq; plumb;
    rewrite insert_insert_eq, app_nil_r, <- !app_assoc; reflexivity.
Qed.

(** C8.  When [respondBot] fails during a [chatMessage] call on an
    active task, [handleRPCCall] appends an Error turn with the error's
    message to the task's conversation, pushes that task state to the
    UI, resets the status message, and still rejects the call with the
    error it caught. *)
Theorem chat_failure_dual_reported params st t t1 e :
  tasks st !! taskId params = Some t →
  respondHuman t (text params) = (t1, Ok ()) →
  outcome (respondBot t1) = Throw e →
  let run := respondBot t1 in
  let failed := addErrorJoule (after run) (errorMessage e) in
  let st' := (handleRPCCall forwarded "chatMessage" params st).1 in
  (* the transcript *)
  tasks st' !! taskId params = Some failed
  ∧ conversation failed
    = conversation (after run) ++ [{| author := ErrorTurn; content := errorMessage e |}]
  (* the pushes, after the ones made before the failure *)
  ∧ (∃ notice,
       outbox st'
       = outbox st
         ++ [PostNotification (StatusMessage "Starting up"); push_task t1]
         ++ List.map (λ p, push_task (progress_snapshot p)) (progress run)
         ++ [ShowErrorMessage notice;
             push_task failed;
             PostNotification StatusReset;
             PosthogCapture (errorMessage e);
             ConsoleLog "posthog event captured!"])
  (* the call *)
  ∧ (handleRPCCall forwarded "chatMessage" params st).2 = Throw e.
Proof.
  intros Ht Hh He run failed st'. subst st'.
  destruct (handleRPCCall_chat_failure params st t t1 e Ht Hh He) as [notice ->].
  cbn [fst snd tasks outbox]. split_and!; [by rewrite lookup_insert_eq|done| |done].
  by exists notice.
Qed.

(** The listener around [handleRPCCall]. *)
Lemma onDidReceiveMessage_rpc message st :
  msg_type message = "rpc" →
  onDidReceiveMessage DEV_MODE forwarded message st
  = match handleRPCCall forwarded (msg_method message) (msg_params message)
            {| git := git st; tasks := tasks st;
               outbox := outbox st
                 ++ [LogRpcCall (msg_method message) (msg_params message)] |}
    with
    | (st', Ok result) =>
        ({| git := git st'; tasks := tasks st';
            outbox := outbox st'
              ++ [LogRpcResponse (msg_id message) (msg_method message);
                  PostRpcResponse (msg_method message) (msg_id message)
                                  (Some result) None] |},
         Ok ())
    | (st', Throw error) =>
        if DEV_MODE then (st', Throw error)
        else
          match message_field error with
          | Ok error_message =>
              ({| git := git st'; tasks := tasks st';
                  outbox := outbox st'
                    ++ [LogRpcError (msg_id message) error_message;
                        PostRpcResponse (msg_method message) (msg_id message)
                                        None error_message] |},
               Ok ())
          | Throw unreadable => (st', Throw unreadable)
          end
    end.
Proof.
  intros Htype. unfold onDidReceiveMessage. rewrite Htype, String.eqb_refl.
  plumb. destruct (handleRPCCall _ _ _ _) as [st' [result|error]]; plumb.
  - by rewrite <- app_assoc.
  - destruct DEV_MODE; [done|].
    destruct (message_field error) as [error_message|unreadable]; [|done].
    by rewrite <- app_assoc.
Qed.

(** On the transport, the failed call is answered with an [error]
    field holding [error.message], unless [DEV_MODE] is set, or what was
    thrown is [null] or [undefined]: then the listener throws and no
    response is posted. *)
Lemma chat_failure_on_the_wire message st t t1 e :
  msg_type message = "rpc" → msg_method message = "chatMessage" →
  tasks st !! taskId (msg_params message) = Some t →
  respondHuman t (text (msg_params message)) = (t1, Ok ()) →
  outcome (respondBot t1) = Throw e →
  let failed := addErrorJoule (after (respondBot t1)) (errorMessage e) in
  ∃ reported,
    onDidReceiveMessage DEV_MODE forwarded message st
    = let st' := {| git := git st;
                    tasks := <[taskId (msg_params message) := failed]> (tasks st);
                    outbox := outbox st ++ reported |} in
      if DEV_MODE then (st', Throw e)
      else
        match message_field e with
        | Ok error_message =>
            ({| git := git st;
                tasks := <[taskId (msg_params message) := failed]> (tasks st);
                outbox := outbox st ++ reported
                  ++ [LogRpcError (msg_id message) error_message;
                      PostRpcResponse "chatMessage" (msg_id message) None
                                      error_message] |},
             Ok ())
        | Throw unreadable => (st', Throw unreadable)
        end.
Proof.
  intros Htype Hmethod Ht Hh He failed.
  rewrite onDidReceiveMessage_rpc, Hmethod by done.
  set (st0 := {| git := git st; tasks := tasks st; outbox := outbox st ++ _ |}).
  destruct (handleRPCCall_chat_failure (msg_params message) st0 t t1 e Ht Hh He)
    as (notice & ->).
  exists ([LogRpcCall "chatMessage" (msg_params message);
           PostNotification (StatusMessage "Starting up"); push_task t1]
          ++ List.map (λ p, push_task (progress_snapshot p)) (progress (respondBot t1))
          ++ [ShowErrorMessage notice; push_task failed; PostNotification StatusReset;
              PosthogCapture (errorMessage e); ConsoleLog "posthog event captured!"]).
  cbv zeta.
  destruct DEV_MODE; [|destruct (message_field e)];
    cbn [git tasks outbox st0]; by rewrite <- !app_assoc.
Qed.


End facts.
End HelloWorldPanelFacts.

(** ** The statements at work on concrete inputs *)

Module ScenarioFacts.
Import GitManager HelloWorldPanel Scenario.

(** *** The bridge *)

Example out_of_order_settlements :
  List.filter (λ e, match e with
                    | RpcClient.Resolve _ _ | RpcClient.Reject _ _ => true
                    | _ => false
                    end)
              (RpcClient.exec RpcClient.init out_of_order).2
  = [RpcClient.Resolve 2 (Some "files");
     RpcClient.Reject 1 "model unavailable";
     RpcClient.Resolve 0 (Some "c2")].
Proof. reflexivity. Qed.

Lemma run_settles_exactly_once_witness :
  RpcClient.settlements 1%nat (RpcClient.exec RpcClient.init out_of_order).2
  = [RpcClient.Reject 1 "model unavailable"].
Proof.
  exact (RpcClientFacts.run_settles_exactly_once
           (take 1 out_of_order) (drop 2 out_of_order) "chatMessage" "{text}").
Defined.

Lemma unknown_response_dropped_witness :
  RpcClient.type stray = "rpcResponse"
  ∧ RpcClient.pendingMessages one_pending !! RpcClient.id stray = None
  ∧ RpcClient.handleMessage one_pending stray
    = (one_pending, [RpcClient.LogReceived 7; RpcClient.WarnUnknown 7]).
Proof.
  assert (RpcClient.type stray = "rpcResponse") as Htype by reflexivity.
  assert (RpcClient.pendingMessages one_pending !! RpcClient.id stray = None)
    as Hnone by reflexivity.
  split_and!; [done|done|].
  exact (proj1 (RpcClientFacts.unknown_response_dropped one_pending stray Htype Hnone)).
Defined.

(** *** The adapter *)

(** A stale undo: [c1] is asked for while [HEAD] is [c2]. *)
Lemma undoLastCommit_guard_witness :
  head_hash (world [c2; c1] true) ≠ Some "c1"
  ∧ (undoLastCommit "c1" (world [c2; c1] true)).2
    = Ok (Some "The specified commit is not the latest commit. Cannot undo.")
  ∧ head_hash (undoLastCommit "c1" (world [c2; c1] true)).1 = Some "c2".
Proof.
  assert (head_hash (world [c2; c1] true) ≠ Some "c1") as Hstale by (vm_compute; congruence).
  destruct (GitManagerFacts.undoLastCommit_guard "c1" (world [c2; c1] true)) as (_ & _ & Hrefuse).
  destruct (Hrefuse Hstale) as (Hresult & _ & _ & _ & Hhead).
  split_and!; [done|done|]. by rewrite Hhead.
Defined.

(** The undo of the latest commit goes through and moves [HEAD]. *)
Example undo_latest :
  (undoLastCommit "c2" (world [c2; c1] true)).2 = Ok None
  ∧ head_hash (undoLastCommit "c2" (world [c2; c1] true)).1 = Some "c1"
  ∧ resets (undoLastCommit "c2" (world [c2; c1] true)).1 = [CallReset 0 "HEAD~1" true].
Proof. by vm_compute. Qed.

(** The latest commit is asked for, but the reset fails (a root commit
    has no [HEAD~1]): the answer is an error message, not [null]. *)
Example undo_root_commit :
  (undoLastCommit "c1" (world [c1] true)).2
  = Ok (Some "Error undoing last commit: Error: ambiguous argument 'HEAD~1'").
Proof. by vm_compute. Qed.

(** A merge commit ([c3] has two parents) and a root commit ([c1] has
    none) give the empty diff. *)
Lemma getUdiffFromCommit_boundaries_witness :
  target_commit (world [c3; c2; c1] true) (Some "c3") = Some c3
  ∧ (∀ p, parents c3 ≠ Some [p])
  ∧ (getUdiffFromCommit (Some "c3") (world [c3; c2; c1] true)).2 = Ok "".
Proof.
  assert (target_commit (world [c3; c2; c1] true) (Some "c3") = Some c3)
    as Htarget by reflexivity.
  assert (∀ p, parents c3 ≠ Some [p]) as Hmerge by (intros p; vm_compute; congruence).
  split_and!; [done|done|].
  exact (proj1 (proj2 (GitManagerFacts.getUdiffFromCommit_boundaries (Some "c3") (world [c3; c2; c1] true)))
           c3 Htarget Hmerge).
Defined.

Example udiff_boundaries :
  (getUdiffFromCommit (Some "c1") (world [c3; c2; c1] true)).2 = Ok ""
  ∧ (getUdiffFromCommit None (world [] true)).2 = Ok ""
  ∧ (getUdiffFromCommit None (world [c2; c1] false)).2 = Ok "".
Proof. by vm_compute. Qed.

(** A commit with one parent gives the per-file diffs, joined. *)
Example udiff_one_parent :
  (getUdiffFromCommit None (world [c2; c1] true)).2
  = Ok ("c2^..c2 /ws/a.ts" +:+ newline +:+ "c2^..c2 /ws/b.ts").
Proof. by vm_compute. Qed.

(** Before the adapter is bound, [commitLocalChanges] rejects, while
    its neighbours answer with their sentinels. *)
Example commitLocalChanges_before_init :
  (commitLocalChanges commit_message (world [c1] false)).2
  = Throw (TypeError "Cannot read properties of undefined (reading 'sitory')")
  ∧ (getLatestCommitHash (world [c1] false)).2 = Ok None
  ∧ (getUdiffFromWorking (world [c1] false)).2 = Ok ""
  ∧ (repoIsClean (world [c1] false)).2 = Ok false.
Proof. by vm_compute. Qed.

(** The sentinel of a wrapped operation before binding comes from the
    [TypeError] of the property read: the un-awaited [checkInit] does not
    stop anything. *)
Example sentinel_before_init :
  checkInit (world [c1] false) = Throw (JsError "Git repository not initialized")
  ∧ effects (getLatestCommitHash (world [c1] false)).1
    = [ConsoleError ("Error getting latest commit hash: TypeError: "
                     +:+ "Cannot read properties of undefined (reading 'sitory')")].
Proof. by vm_compute. Qed.

(** Once bound, it stages, commits and counts. *)
Example commitLocalChanges_commits :
  let dirty := {| root := "/ws"; history := [c1]; staged := [];
                  working := [{| uri_fsPath := "/ws/a.ts"; gitIgnored := false |};
                              {| uri_fsPath := "/ws/out.log"; gitIgnored := true |}] |} in
  let w := {| gitExtension := Some [0%nat]; heap := λ _, dirty; repo := Some 0%nat;
              workspaceRoot := "/ws"; effects := [] |} in
  (commitLocalChanges commit_message w).2 = Ok 1%nat
  ∧ head_hash (commitLocalChanges commit_message w).1 = Some "h:[via melty] update".
Proof. by vm_compute. Qed.

(** *** The panel *)

(** The task is active and [deactivate] reports no error, yet the RPC
    answers [false]; [activateTask] answers [true]. *)
Example deactivate_answers_false :
  (deactivate "T1" (tasks (panel [c1] true))).2 = Ok None
  ∧ (rpcDeactivateTask "T1" (panel [c1] true)).2 = Ok false
  ∧ (handleRPCCall no_forward "deactivateTask"
       {| taskId := "T1"; text := ""; commitId := "" |} (panel [c1] true)).2
    = Ok (VBool false)
  ∧ (rpcActivateTask "T1" (panel [c1] true)).2 = Ok true.
Proof. by vm_compute. Qed.

(** The undo went through ([HEAD] moved from [c2] to [c1]) and the user
    is told it failed. *)
Example undo_succeeds_failure_shown :
  let st := (rpcUndoLatestCommit "c2" (panel [c2; c1] true)).1 in
  (undoLastCommit "c2" (world [c2; c1] true)).2 = Ok None
  ∧ head_hash (git st) = Some "c1"
  ∧ outbox st = [ShowErrorMessage "Failed to undo last commit: [object Promise]"].
Proof. by vm_compute. Qed.

(** [init] settles with an error message; the handler answers [""]. *)
Example config_error_not_surfaced :
  let w := {| gitExtension := None; heap := λ _, repo_of []; repo := None;
              workspaceRoot := "/ws"; effects := [] |} in
  let st := {| git := w; tasks := ∅; outbox := [] |} in
  (init w).2 = Ok (Some "Git extension not found")
  ∧ (rpcGetGitConfigErrors st).2 = Ok "".
Proof. by vm_compute. Qed.



Lemma chat_failure_dual_reported_witness :
  let params := msg_params (chat "fail") in
  tasks (panel [c1] true) !! taskId params = Some t1
  ∧ respondHuman t1 (text params) = (failing, Ok ())
  ∧ outcome (respondBot failing) = Throw (JsError "model unavailable")
  ∧ (handleRPCCall no_forward "chatMessage" params (panel [c1] true)).2
    = Throw (JsError "model unavailable")
  ∧ List.filter posted (outbox (handleRPCCall no_forward "chatMessage" params
                                  (panel [c1] true)).1)
    = [PostNotification (StatusMessage "Starting up");
       push_task failing;
       push_task (say failing (turn Bot "I"));
       push_task (say failing (turn ErrorTurn "model unavailable"));
       PostNotification StatusReset].
Proof.
  cbv zeta.
  assert (tasks (panel [c1] true) !! taskId (msg_params (chat "fail")) = Some t1)
    as Hactive by reflexivity.
  assert (respondHuman t1 (text (msg_params (chat "fail"))) = (failing, Ok ()))
    as Hhuman by reflexivity.
  assert (outcome (respondBot failing) = Throw (JsError "model unavailable"))
    as Hbot by reflexivity.
  destruct (HelloWorldPanelFacts.chat_failure_dual_reported no_forward
              (msg_params (chat "fail")) (panel [c1] true) t1 failing
              (JsError "model unavailable") Hactive Hhuman Hbot)
    as (_ & _ & (notice & ->) & ->).
  split_and!; reflexivity.
Defined.

(** The same failure seen from the transport: answered with the error
    message, or left unanswered under [DEV_MODE]. *)
Example chat_failure_response :
  last (outbox (onDidReceiveMessage false no_forward (chat "fail") (panel [c1] true)).1)
  = Some (PostRpcResponse "chatMessage" 5 None (Some "model unavailable"))
  ∧ List.filter (λ o, match o with PostRpcResponse _ _ _ _ => true | _ => false end)
      (outbox (onDidReceiveMessage true no_forward (chat "fail") (panel [c1] true)).1)
    = []
  ∧ (onDidReceiveMessage true no_forward (chat "fail") (panel [c1] true)).2
    = Throw (JsError "model unavailable").
Proof. by vm_compute. Qed.

End ScenarioFacts.

(** * Properties of the rest of the code *)

(** ** The caller side, continued *)

Module RpcClientExtFacts.
Import RpcClient RpcClientFacts RpcClientExt.
Section facts.
Context {Payload : Type}.
Implicit Types (st : @State) (m : MessageData Payload)
               (ev : Event Payload) (evs : list (Event Payload)).

Lemma posted_ids_app (e1 e2 : list (Effect Payload)) :
  posted_ids (e1 ++ e2) = posted_ids e1 ++ posted_ids e2.
Proof. apply omap_app. Qed.

Lemma posted_ids_step st ev :
  posted_ids (step st ev).2
  = match ev with Call _ _ => [messageId st + 1] | Deliver _ => [] end.
Proof.
  destruct ev as [method params|m]; cbn; [done|].
  unfold handleMessage. destruct (String.eqb _ _); [|done].
  destruct (pendingMessages st !! id m); [|done].
  unfold settle. by destruct (truthy _).
Qed.

Lemma messageId_step st ev :
  messageId (step st ev).1
  = match ev with Call _ _ => messageId st + 1 | Deliver _ => messageId st end.
Proof.
  rewrite step_state. destruct ev as [method params|m]; cbn; [done|].
  destruct (String.eqb _ _); [|done]. by destruct (pendingMessages st !! id m).
Qed.

Lemma posted_ids_exec st evs :
  posted_ids (exec st evs).2
  = List.map (λ k, messageId st + Z.of_nat k) (seq 1 (calls evs))
  ∧ messageId (exec st evs).1 = messageId st + Z.of_nat (calls evs).
Proof.
  revert st. induction evs as [|ev evs IH]; intros st.
  - cbn. split; [done|lia].
  - rewrite exec_cons. cbn [fst snd]. rewrite posted_ids_app, posted_ids_step.
    destruct (IH (step st ev).1) as [-> ->]. rewrite messageId_step.
    unfold calls. cbn [List.filter]. destruct ev as [method params|m]; cbn [length app].
    + split; [|lia]. cbn [seq List.map]. f_equal.
      rewrite <- (seq_shift _ 1), List.map_map. apply List.map_ext. intros k. lia.
    + done.
Qed.

(** X1.  Ids are handed out as 1, 2, 3, ...: whatever is delivered in
    between, the k-th call of [run] posts id k, so the ids on the wire are
    strictly increasing and no id is used twice. *)
Theorem ids_count_up evs :
  posted_ids (exec init evs).2 = List.map Z.of_nat (seq 1 (calls evs)).
Proof.
  rewrite (proj1 (posted_ids_exec init evs)). apply List.map_ext. intros k. cbn. lia.
Qed.

(** X2.  A response is consumed by the call it answers: once a response
    for a pending id has been handled, a second response with that id is
    treated as unknown; it is warned about, settles nothing and changes
    nothing. *)
Theorem duplicate_response_dropped st m m' :
  type m = "rpcResponse" → is_Some (pendingMessages st !! id m) →
  type m' = "rpcResponse" → id m' = id m →
  let st' := (handleMessage st m).1 in
  pendingMessages st' !! id m = None
  ∧ handleMessage st' m' = (st', [LogReceived (id m); WarnUnknown (id m)]).
Proof.
  intros Htype [p Hp] Htype' Hid st'.
  assert (st' = delete_pending (id m) st) as ->.
  { subst st'. unfold handleMessage. rewrite Htype, Hp. cbn. by destruct (truthy _). }
  assert (pendingMessages (delete_pending (id m) st) !! id m = None) as Hgone
    by apply lookup_delete_eq.
  split; [done|]. unfold handleMessage. by rewrite Htype', Hid, Hgone.
Qed.

Lemma settled_step st ev :
  wf st →
  (size (pendingMessages (step st ev).1)
   + length (List.filter is_settlement (step st ev).2)
   = size (pendingMessages st)
     + match ev with Call _ _ => 1 | Deliver _ => 0 end)%nat.
Proof.
  intros Hwf. destruct ev as [method params|m]; cbn.
  - rewrite map_size_insert_None; [lia|].
    destruct (pendingMessages st !! (messageId st + 1)) as [p|] eqn:Hp; [|done].
    apply (wf_ids _ Hwf) in Hp. lia.
  - unfold handleMessage. destruct (String.eqb _ _); [|cbn; lia].
    destruct (pendingMessages st !! id m) as [p|] eqn:Hp; [|cbn; lia].
    assert (size (delete (id m) (pendingMessages st)) + 1 = size (pendingMessages st))%nat
      as Hsize.
    { rewrite map_size_delete_Some by eauto.
      pose proof (map_size_ne_0_lookup_2 (pendingMessages st) (id m) (mk_is_Some _ _ Hp)).
      lia. }
    unfold settle. destruct (truthy _); cbn; lia.
Qed.

(** X3.  Nothing is lost and nothing is counted twice: at any moment the
    number of entries in the pending map plus the number of settlements
    made so far is the number of calls issued so far. *)
Theorem pending_plus_settled_is_calls evs :
  (size (pendingMessages (exec init evs).1)
   + length (List.filter is_settlement (exec init evs).2)
   = calls evs)%nat.
Proof.
  assert (∀ st, wf st →
            (size (pendingMessages (exec st evs).1)
             + length (List.filter is_settlement (exec st evs).2)
             = size (pendingMessages st) + calls evs)%nat) as Hgen.
  { induction evs as [|ev evs IH]; intros st Hwf; [cbn; lia|].
    rewrite exec_cons. cbn [fst snd]. rewrite List.filter_app, length_app.
    pose proof (IH _ (wf_step st ev Hwf)) as IH'.
    pose proof (settled_step st ev Hwf) as Hstep.
    unfold calls in *. cbn [List.filter]. destruct ev; cbn [length]; lia. }
  rewrite (Hgen init wf_init). cbn. by rewrite map_size_empty.
Qed.

End facts.
End RpcClientExtFacts.

(** ** The version-control adapter, continued *)

Module GitManagerExtFacts.
Import GitManager GitManagerFacts GitManagerExt.
Section facts.
Context {R : Type} `{GitApi R}.
Variable generateCommitMessage : string → Completion string.
Implicit Types (w : World R).

Lemma since_logged w es : since w (logged w es) = es.
Proof. unfold since, logged. cbn. by rewrite drop_app_length. Qed.

(** X4.  [init] either reports one of its four messages and changes
    nothing, or binds [this.repo] to the first repository of the git
    extension whose root is the workspace root and refreshes its status
    once.  The binding is made before the refresh: when [status()]
    rejects, [init] rejects too, and the adapter is bound all the same. *)
Theorem init_reports_or_binds w :
  match (init w).2 with
  | Ok (Some message) => message ∈ init_errors ∧ (init w).1 = w
  | _ =>
      ∃ repositories r,
        gitExtension w = Some repositories
        ∧ List.find (at_root w) repositories = Some r
        ∧ repo (init w).1 = Some r
        ∧ effects (init w).1 = effects w ++ [CallStatus r]
        ∧ (init w).2 = match (status (heap w r)).2 with
                       | Ok _ => Ok None
                       | Throw e => Throw e
                       end
  end.
Proof.
  unfold init, init_errors. destruct (gitExtension w) as [repositories|] eqn:Hext.
  - destruct (length repositories =? 0)%nat.
    { cbn. split; [set_solver|done]. }
    destruct (String.eqb (workspaceRoot w) "").
    { cbn. split; [set_solver|done]. }
    fold (at_root w). destruct (List.find (at_root w) repositories) as [r|] eqn:Hfind.
    + unfold set_repo. plumb. destruct (status (heap w r)) as [x [[]|e]] eqn:Hstatus;
        cbn; exists repositories, r; by rewrite Hstatus.
    + cbn. split; [set_solver|done].
  - cbn. split; [set_solver|done].
Qed.

(** X5.  Before the adapter is bound, each operation written with
    [try]/[catch] answers with its sentinel, writes one line to the
    console, and calls nothing on any repository.  For [undoLastCommit]
    the answer is the refusal for a commit that is not the latest, not a
    message about initialisation. *)
Theorem unbound_adapter_answers_with_sentinels w commitId commit branchName commitSha :
  repo w = None →
  (∃ t, getLatestCommitHash w = (logged w [ConsoleError t], Ok None))
  ∧ (∃ t, undoLastCommit commitId w
          = (logged w [ConsoleError t],
             Ok (Some "The specified commit is not the latest commit. Cannot undo.")))
  ∧ (∃ t, getUdiffFromCommit commit w = (logged w [ConsoleError t], Ok ""))
  ∧ (∃ t, getUdiffFromWorking w = (logged w [ConsoleError t], Ok ""))
  ∧ (∃ t, repoIsClean w = (logged w [ConsoleError t], Ok false))
  ∧ (∃ t, createBranchOp branchName w = (logged w [ConsoleError t], Ok false))
  ∧ (∃ t, checkoutBranch branchName w = (logged w [ConsoleError t], Ok false))
  ∧ (∃ t, getCommitOp commitSha w = (logged w [ConsoleError t], Ok None)).
Proof.
  intros Hrepo.
  unfold getLatestCommitHash, undoLastCommit, getUdiffFromCommit, udiff_failed,
    getUdiffFromWorking, repoIsClean, createBranchOp, checkoutBranch, getCommitOp,
    getLatestCommitHash.
  plumb. rewrite !Hrepo. plumb.
  rewrite bool_decide_eq_false_2 by done. cbn [negb].
  split_and!; eexists; unfold logged; rewrite Hrepo; reflexivity.
Qed.

Lemma read_only_nothing w : ∃ es, w = logged w es ∧ Forall (λ e, is_console e = true) es.
Proof. exists []. by rewrite logged_nil. Qed.

Lemma read_only_console w text :
  ∃ es, logged w [ConsoleError text] = logged w es ∧ Forall (λ e, is_console e = true) es.
Proof. exists [ConsoleError text]. split; [done|]. by repeat constructor. Qed.

(** X6.  The lookups ([getLatestCommitHash], [getUdiffFromCommit],
    [getUdiffFromWorking], [repoIsClean], [getCommit]) are read-only in
    every state: they issue no status, add, commit, reset, branch or
    checkout call, touch no repository object and leave the binding as
    it is; at most they write to the console. *)
Theorem lookups_are_read_only :
  read_only getLatestCommitHash
  ∧ (∀ commit, read_only (getUdiffFromCommit commit))
  ∧ read_only getUdiffFromWorking
  ∧ read_only repoIsClean
  ∧ (∀ commitSha, read_only (getCommitOp commitSha)).
Proof.
  split_and!; [|intros commit| | |intros commitSha]; intros w;
    unfold getLatestCommitHash, getUdiffFromCommit, udiff_failed, getUdiffFromWorking,
      repoIsClean, getCommitOp; plumb;
    repeat (case_match; plumb; simplify_eq);
    first [ apply read_only_nothing
          | apply read_only_console
          | eexists [_]; unfold logged; split;
            [ by match goal with Hr : repo _ = _ |- _ => rewrite Hr end
            | by repeat constructor ] ].
Qed.

(** X7.  [repoIsClean] answers [true] exactly when the adapter is bound
    and the working-tree, index and merge change lists of the bound
    repository are all empty; an unbound adapter therefore reads as not
    clean. *)
Theorem repoIsClean_true_iff w :
  (repoIsClean w).2 = Ok true
  ↔ ∃ r, repo w = Some r
         ∧ state_workingTreeChanges (heap w r) = []
         ∧ state_indexChanges (heap w r) = []
         ∧ state_mergeChanges (heap w r) = [].
Proof.
  unfold repoIsClean. plumb. destruct (repo w) as [r|]; plumb.
  - split.
    + intros [= Hclean]. exists r.
      destruct (state_workingTreeChanges (heap w r)), (state_indexChanges (heap w r)),
        (state_mergeChanges (heap w r)); try done.
    + intros (? & [= <-] & -> & -> & ->). done.
  - split; [done|]. by intros (? & ? & _).
Qed.

(** X8.  The reset of [undoLastCommit] goes to the first repository of
    the git extension, whichever repository the adapter is bound to.
    When these are two different objects and the bound one's [HEAD] is
    the commit asked for, the other repository is reset, the bound one
    is left as it was (its [HEAD] is still that commit), and the answer
    is [null] as soon as that reset went through. *)
Theorem undo_resets_the_first_repository commitId w r r0 rest :
  repo w = Some r → gitExtension w = Some (r0 :: rest) → r ≠ r0 →
  head_hash w = Some commitId →
  let w' := (undoLastCommit commitId w).1 in
  heap w' r0 = (reset (heap w r0) "HEAD~1" true).1
  ∧ heap w' r = heap w r
  ∧ head_hash w' = Some commitId
  ∧ ((reset (heap w r0) "HEAD~1" true).2 = Ok () →
     (undoLastCommit commitId w).2 = Ok None).
Proof.
  intros Hrepo Hext Hne Hhead w'. subst w'.
  destruct (getLatestCommitHash_spec w) as (es & Hlatest & _).
  unfold undoLastCommit. plumb. rewrite Hlatest.
  rewrite bool_decide_eq_true_2 by done. cbn [negb logged gitExtension].
  rewrite Hext. cbn [logged heap effects].
  unfold head_hash, head_commit in *.
  destruct (reset (heap w r0) "HEAD~1" true) as [x [[]|e]]; plumb;
    rewrite Hrepo in *; rewrite fn_lookup_insert, fn_lookup_insert_ne by done;
    cbn [repo logged]; rewrite Hrepo, fn_lookup_insert_ne by done; done.
Qed.

(** X9.  For a commit with exactly one parent, in a repository that has
    a [HEAD]: the answer of [getUdiffFromCommit] is the per-file diffs
    between [commit^] and [commit], one for each changed file in the order
    [diffBetween] lists them, joined by newlines; nothing is logged. *)
Theorem getUdiffFromCommit_joins_file_diffs commit w r hc rev c p changes udiffs :
  repo w = Some r → head_commit w = Some hc →
  target_rev w commit = Some rev →
  getCommit (heap w r) rev = Ok c → parents c = Some [p] →
  diffBetween (heap w r) (rev +:+ "^") rev = Ok changes →
  promise_all (λ change, diffBetweenPath (heap w r) (rev +:+ "^") rev (uri_fsPath change))
              changes = Ok udiffs →
  getUdiffFromCommit commit w = (w, Ok (join newline udiffs)).
Proof.
  unfold head_commit, target_rev, head_hash, head_commit.
  intros Hrepo Hhead Hrev Hc Hp Hdiff Hall. rewrite Hrepo in *.
  unfold getUdiffFromCommit, udiff_failed. plumb. rewrite !Hrepo. plumb.
  destruct (getCommit (heap w r) "HEAD") as [hc'|]; [|done].
  injection Hhead as ->. cbn in Hrev. plumb.
  assert ((if truthy commit then default "" commit else hash hc) = rev) as ->.
  { destruct commit as [s|]; cbn in *; [destruct (String.eqb s "")|]; cbn in *; congruence. }
  rewrite ?Hrepo, Hc. plumb.
  assert (hasExactlyOneParent c = true) as -> by (apply hasExactlyOneParent_true; eauto).
  cbn [negb]. plumb. rewrite ?Hrepo. plumb. rewrite Hdiff. plumb.
  rewrite ?Hrepo. by rewrite Hall.
Qed.

(** X10.  [commitLocalChanges] answers with the number of index changes
    found after staging, and commits only if there are any: when it
    answers 0 no commit call was made, and when it answers a positive
    number exactly one was made, on the bound repository, with a message
    that starts with ["[via melty] "]. *)
Theorem commitLocalChanges_commits_iff_staged w n :
  (commitLocalChanges generateCommitMessage w).2 = Ok n →
  let made := List.filter is_commit
                (since w (commitLocalChanges generateCommitMessage w).1) in
  (n = 0%nat → made = [])
  ∧ ((0 < n)%nat →
     ∃ r message, repo w = Some r ∧ made = [CallCommit r ("[via melty] " +:+ message)]).
Proof.
  intros Hn made. subst made. revert Hn. walk_commitLocalChanges.
  all: intros [= <-]; read_log.
  all: match goal with
       | Hpos : (0 <? _)%nat = true |- _ => apply Nat.ltb_lt in Hpos
       | Hpos : (0 <? _)%nat = false |- _ => apply Nat.ltb_ge in Hpos
       end.
  all: split; intros Hcount; cbn; first [lia | done | by eauto].
Qed.

(** X11.  What [commitLocalChanges] stages is fixed by the changes
    against [HEAD] that are not git-ignored: every [add] call it makes is
    on the bound repository, with exactly the paths of those changes as
    [diffWithHEAD] listed them after the first status refresh; an ignored
    file is never staged. *)
Theorem commitLocalChanges_stages_unignored_changes w r paths :
  CallAdd r paths ∈ since w (commitLocalChanges generateCommitMessage w).1 →
  repo w = Some r
  ∧ ∃ changes,
      diffWithHEAD (status (heap w r)).1 = Ok changes
      ∧ paths = List.map uri_fsPath
                  (List.filter (λ change, negb (gitIgnored change)) changes).
Proof.
  walk_commitLocalChanges.
  all: read_log; rewrite ?drop_all; intros Hin.
  all: repeat match goal with
         | Hin : _ ∈ [] |- _ => by apply elem_of_nil in Hin
         | Hin : _ ∈ _ :: _ |- _ => apply elem_of_cons in Hin as [Hin|Hin]; simplify_eq
         end.
  all: split; [done|]; eexists; split; [|reflexivity].
  all: match goal with
       | Hs : status (heap _ _) = _, Hd : diffWithHEAD _ = _ |- _ =>
           rewrite Hs; rewrite fn_lookup_insert in Hd; exact Hd
       end.
Qed.

End facts.
End GitManagerExtFacts.

(** ** The remaining operations of the adapter *)

Module GitManagerRestFacts.
Import GitManager GitManagerRest.
Section facts.
Context {R : Type} `{GitApi R} `{GitApiRest R} {MeltyFile : Type}.
Variable absolutePath : MeltyFile → string → string.
Variable applyChangeSet :
  ChangeSet MeltyFile → string → (Ref → R) → (Ref → R) * Completion ().
Implicit Types (m : Manager R) (changeSet : ChangeSet MeltyFile).

(** X12.  [commitChangeSet] does not write anything before the status
    refresh went through: on an unbound adapter, or when [status()]
    rejects, it answers [null] and the change set is not applied. *)
Theorem commitChangeSet_writes_nothing_without_status changeSet commitMessage m :
  (repo m = None ∨ ∃ r e, repo m = Some r ∧ (status (heap m r)).2 = Throw e) →
  let m' := (commitChangeSet absolutePath applyChangeSet changeSet commitMessage m).1 in
  (commitChangeSet absolutePath applyChangeSet changeSet commitMessage m).2 = Ok VNull
  ∧ List.filter is_write (since m m') = [].
Proof.
  intros [Hrepo|(r & e & Hrepo & Hstatus)]; cbv zeta.
  - unfold commitChangeSet. plumb_rest. rewrite Hrepo. plumb_rest.
    split; [done|]. by read_since.
  - unfold commitChangeSet. plumb_rest. rewrite Hrepo. plumb_rest.
    destruct (status (heap m r)) as [x c]. cbn in Hstatus. subst c. plumb_rest.
    split; [done|]. by read_since.
Qed.

(** The run of [commitChangeSet] in which every call goes through. *)
Lemma commitChangeSet_goes_through changeSet commitMessage m r x1 h2 x3 x4 x5 HEAD :
  let answered := commitChangeSet absolutePath applyChangeSet changeSet commitMessage m in
  let paths := staged_paths absolutePath changeSet m in
  let text := "[by melty] " +:+ commitMessage in
  repo m = Some r →
  status (heap m r) = (x1, Ok ()) →
  applyChangeSet changeSet (workspaceRoot m) (<[r := x1]> (heap m)) = (h2, Ok ()) →
  add (h2 r) paths = (x3, Ok ()) →
  commit_allowing_empty x3 text = (x4, Ok ()) →
  status x4 = (x5, Ok ()) →
  state_HEAD x5 = Some HEAD →
  answered.2 = Ok (of_optional (head_commit_id HEAD))
  ∧ since m answered.1
    = Git (CallStatus r)
      :: (if unchanged x1 then []
          else [ConsoleWarn "Committing changeset despite unclean repo"])
      ++ [ApplyChangeSet (List.map fst (filesChanged changeSet)) (workspaceRoot m);
          Git (CallAdd r paths);
          CallCommitAllowingEmpty r text;
          Git (CallStatus r)].
Proof.
  cbv zeta. unfold staged_paths.
  intros Hrepo Hstatus Happly Hadd Hcommit Hstatus' HHEAD.
  unfold commitChangeSet, repoIsClean, unchanged. plumb_rest.
  rewrite !Hrepo. plumb_rest. rewrite Hstatus. plumb_rest.
  rewrite !fn_lookup_insert.
  destruct (_ && _ && _); cbn [negb]; plumb_rest; rewrite Happly; plumb_rest;
    rewrite Hadd; plumb_rest; rewrite !fn_lookup_insert, Hcommit; plumb_rest;
    rewrite !fn_lookup_insert, Hstatus'; plumb_rest;
    rewrite !fn_lookup_insert, HHEAD; plumb_rest;
    (split; [done|by read_since]).
Qed.

(** X13.  Whenever [commitChangeSet] answers with something other than
    [null], it has made exactly three writes, in this order: it applied
    the change set under the workspace root, staged the absolute paths of
    the updated files (in the order of the change set), and committed on
    the bound repository with the message ["[by melty] " + commitMessage],
    empty commits allowed.  Uncommitted changes in the repository do not
    stop it: when each call it makes goes through, it answers with the
    commit of [HEAD] whether the repository was clean or not, and the
    only difference an unclean repository makes is one warning before
    the change set is applied. *)
Theorem commitChangeSet_applies_stages_commits changeSet commitMessage m :
  let answered := commitChangeSet absolutePath applyChangeSet changeSet commitMessage m in
  let paths := staged_paths absolutePath changeSet m in
  let text := "[by melty] " +:+ commitMessage in
  let writes r :=
    [ApplyChangeSet (List.map fst (filesChanged changeSet)) (workspaceRoot m);
     Git (CallAdd r paths);
     CallCommitAllowingEmpty r text] in
  (answered.2 ≠ Ok VNull →
   ∃ r, repo m = Some r ∧ List.filter is_write (since m answered.1) = writes r)
  ∧ (∀ r x1 h2 x3 x4 x5 HEAD,
       repo m = Some r →
       status (heap m r) = (x1, Ok ()) →
       applyChangeSet changeSet (workspaceRoot m) (<[r := x1]> (heap m)) = (h2, Ok ()) →
       add (h2 r) paths = (x3, Ok ()) →
       commit_allowing_empty x3 text = (x4, Ok ()) →
       status x4 = (x5, Ok ()) →
       state_HEAD x5 = Some HEAD →
       answered.2 = Ok (of_optional (head_commit_id HEAD))
       ∧ since m answered.1
         = Git (CallStatus r)
           :: (if unchanged x1 then []
               else [ConsoleWarn "Committing changeset despite unclean repo"])
           ++ writes r ++ [Git (CallStatus r)]).
Proof.
  cbv zeta. split; [|apply commitChangeSet_goes_through].
  unfold staged_paths. walk_commitChangeSet.
  all: intros Hanswer; try done.
  all: eexists; split; [reflexivity|]; by read_since.
Qed.

(** X14.  In every outcome of [commitChangeSet] the writes made are an
    initial part of: apply the change set, stage, commit; and nothing is
    undone, no reset and no checkout is issued.  So when staging or
    committing fails, the answer [null] comes with the files written. *)
Theorem commitChangeSet_never_rolls_back changeSet commitMessage m r :
  repo m = Some r →
  let m' := (commitChangeSet absolutePath applyChangeSet changeSet commitMessage m).1 in
  List.filter is_undo (since m m') = []
  ∧ List.filter is_write (since m m')
    `prefix_of`
    [ApplyChangeSet (List.map fst (filesChanged changeSet)) (workspaceRoot m);
     Git (CallAdd r (List.map (λ change, absolutePath (updated change.2)
                                                      (workspaceRoot m))
                              (filesChanged changeSet)));
     CallCommitAllowingEmpty r ("[by melty] " +:+ commitMessage)].
Proof.
  intros Hrepo. cbv zeta. walk_commitChangeSet.
  all: read_since; cbn [List.filter is_undo is_write]; split; [done|].
  all: by eexists.
Qed.

(** X15.  [getCurrentBranch] and [isOnMainBranch] agree and only look:
    the first answers with the name of the branch [HEAD] is on, [null]
    when the adapter is unbound, [HEAD] is detached or has an empty name;
    the second answers [true] exactly when the first answers ["main"];
    neither changes anything but the console. *)
Theorem branch_queries_agree m :
  (getCurrentBranch m).2 = Ok (if truthy (branch m) then branch m else None)
  ∧ (∃ answer, (isOnMainBranch m).2 = Ok answer
               ∧ (answer = true ↔ (getCurrentBranch m).2 = Ok (Some "main")))
  ∧ heap (getCurrentBranch m).1 = heap m ∧ repo (getCurrentBranch m).1 = repo m
  ∧ heap (isOnMainBranch m).1 = heap m ∧ repo (isOnMainBranch m).1 = repo m.
Proof.
  unfold getCurrentBranch, isOnMainBranch, branch. plumb_rest.
  destruct (repo m) as [r|] eqn:Hrepo; plumb_rest.
  - split_and!; try done. eexists. split; [done|].
    rewrite bool_decide_eq_true.
    destruct (option_bind _ _ _ _) as [name|]; cbn; [|split; congruence].
    destruct (String.eqb_spec name "") as [->|Hne]; cbn; split; congruence.
  - split_and!; try done. by exists false.
Qed.

(** X16.  [getMeltyRemote] looks up the remote named by the
    [melty.remoteName] setting, and ["origin"] when the setting is absent
    or empty.  It answers with the URLs of the first remote of that name,
    and with [null] when the adapter is unbound or no remote has that
    name; it does not throw. *)
Theorem getMeltyRemote_finds_the_named_remote m :
  (getMeltyRemote m).2
  = Ok ((λ remote, (fetchUrl remote, pushUrl remote)) <$> melty_remote m)
  ∧ (remoteNameSetting m = None ∨ remoteNameSetting m = Some "" →
     remoteName m = "origin")
  ∧ (∀ name, remoteNameSetting m = Some name → name ≠ "" → remoteName m = name).
Proof.
  split_and!.
  - unfold getMeltyRemote, melty_remote. plumb_rest.
    destruct (repo m) as [r|]; plumb_rest; [|done].
    by destruct (List.find _ _).
  - unfold remoteName. by intros [->| ->].
  - unfold remoteName. intros name -> Hne. cbn.
    by destruct (String.eqb_spec name "").
Qed.

(** X17.  [pushToMeltyRemote] pushes at most once, to the push URL of
    the remote [getMeltyRemote] finds, the given branch, with the third
    argument [false].  Without such a remote, or on an unbound adapter,
    it makes no push call and answers [false]; otherwise it answers
    [true] exactly when the push call did not throw. *)
Theorem pushToMeltyRemote_pushes_once branchName m :
  let m' := (pushToMeltyRemote branchName m).1 in
  match repo m, melty_remote m with
  | Some r, Some remote =>
      List.filter is_push (since m m') = [CallPush r (pushUrl remote) branchName false]
      ∧ (pushToMeltyRemote branchName m).2
        = Ok (match (push (heap m r) (pushUrl remote) branchName false).2 with
              | Ok _ => true
              | Throw _ => false
              end)
  | _, _ =>
      List.filter is_push (since m m') = []
      ∧ (pushToMeltyRemote branchName m).2 = Ok false
  end.
Proof.
  cbv zeta. unfold pushToMeltyRemote, getMeltyRemote, melty_remote. plumb_rest.
  destruct (repo m) as [r|] eqn:Hrepo; plumb_rest.
  - destruct (List.find _ (state_remotes (heap m r))) as [remote|]; plumb_rest.
    + rewrite ?Hrepo. plumb_rest.
      destruct (push (heap m r) (pushUrl remote) branchName false) as [x [[]|e]];
        plumb_rest; (split; [by read_since|done]).
    + rewrite ?Hrepo. plumb_rest. split; [by read_since|done].
  - rewrite ?Hrepo. plumb_rest. split; [by read_since|done].
Qed.

Lemma init_reported w err :
  (init w).2 = Ok (Some err) → (init w).1 = w.
Proof.
  unfold init. destruct (GitManager.gitExtension w) as [repositories|]; [|done].
  destruct (length repositories =? 0)%nat; [done|].
  destruct (String.eqb (GitManager.workspaceRoot w) ""); [done|].
  destruct (List.find _ repositories) as [r|]; [|done].
  unfold set_repo. plumb. by destruct (status (GitManager.heap w r)) as [x [[]|e]].
Qed.

Lemma stopped_poller_stays_stopped m evs :
  polling m = false →
  polling (host_run m evs) = false
  ∧ repo (host_run m evs) = repo m
  ∧ log (host_run m evs) = log m.
Proof.
  revert m. induction evs as [|ev evs IH]; intros m Hstopped; [done|].
  change (host_run m (ev :: evs)) with (host_run (host_step m ev) evs).
  destruct ev as [|extension objects].
  - cbn [host_step]. unfold tick. rewrite Hstopped. cbn [fst]. by apply IH.
  - destruct (IH (host_step m (HostChanged extension objects)) Hstopped) as (-> & -> & ->).
    done.
Qed.

(** X18.  The poller of the constructor tries [init] once.  At the first
    tick that sees the git extension the interval is cleared before
    [init] runs, so whatever happens later (more ticks, repositories
    appearing in the extension) the poller neither binds nor logs again.
    In particular, when that one [init] reports an error, the poller
    leaves the adapter as unbound as it was, with one error line. *)
Theorem poller_tries_init_once m evs :
  polling m = true → is_Some (gitExtension m) →
  let m1 := (tick m).1 in
  let m' := host_run m (Tick :: evs) in
  polling m' = false ∧ repo m' = repo m1 ∧ log m' = log m1
  ∧ ∀ err,
      (init (world m)).2 = Ok (Some err) →
      repo m1 = repo m
      ∧ log m1 = log m ++ [Git (ConsoleError ("Error initializing git repository: "
                                               +:+ err))].
Proof.
  intros Hpolling [repositories Hext] m1 m'.
  assert (polling m1 = false) as Hstopped.
  { subst m1. unfold tick. rewrite Hpolling, Hext. plumb_rest.
    destruct (init _) as [w [[err|]|e]]; by plumb_rest. }
  subst m'. change (host_run m (Tick :: evs)) with (host_run m1 evs).
  destruct (stopped_poller_stays_stopped m1 evs Hstopped) as (-> & -> & ->).
  split_and!; try done. intros err Herr. subst m1.
  unfold tick. rewrite Hpolling, Hext. plumb_rest.
  pose proof (init_reported _ _ Herr) as Hsame. unfold world in *.
  destruct (init _) as [w c]. cbn in Herr, Hsame. subst. plumb_rest.
  by rewrite app_nil_r.
Qed.

End facts.
End GitManagerRestFacts.

(** ** The responder side, continued *)

Module HelloWorldPanelExtFacts.
Import HelloWorldPanel HelloWorldPanelFacts HelloWorldPanelExt.
Section facts.
Context {R : Type} `{GitManager.GitApi R} `{TaskBackend}.
Variable forwarded : string → Params → M (Panel R) Value.
Implicit Types (st : Panel R) (t : Task).

Lemma dispatch_unknown method params st :
  method ∉ known_methods →
  dispatch forwarded method params st
  = (st, Throw (JsError ("Unknown RPC method: " +:+ method))).
Proof.
  intros Hunknown. unfold dispatch.
  repeat match goal with
    | |- context [String.eqb method ?name] =>
        destruct (String.eqb_spec method name) as [->|_];
        [exfalso; apply Hunknown, list_elem_of_In; cbn; tauto|]
    end.
  rewrite bool_decide_eq_false_2; [done|].
  intros Hin. apply Hunknown, list_elem_of_In.
  apply list_elem_of_In in Hin. cbn in *. tauto.
Qed.

(** X19.  A call of a method [handleRPCCall] has no case for is rejected
    with the error ["Unknown RPC method: " + method]; the user sees one
    internal-error notification, the failure is captured, and neither the
    tasks nor the adapter are touched. *)
Theorem unknown_method_is_rejected method params st :
  method ∉ known_methods →
  handleRPCCall forwarded method params st
  = ({| git := git st; tasks := tasks st;
        outbox := outbox st
          ++ [ShowErrorMessage ("Melty internal error: Unknown RPC method: "
                                +:+ method +:+ ". Please try again.");
              PosthogCapture ("Unknown RPC method: " +:+ method);
              ConsoleLog "posthog event captured!"] |},
     Throw (JsError ("Unknown RPC method: " +:+ method))).
Proof.
  intros Hunknown. unfold handleRPCCall, try_.
  rewrite dispatch_unknown by done.
  assert (String.eqb method "chatMessage" = false) as ->.
  { apply String.eqb_neq. intros ->. apply Hunknown, list_elem_of_In. cbn. tauto. }
  cbn [errorMessage].
  assert (String.eqb ("Unknown RPC method: " +:+ method)
            "Cannot read properties of null (reading 'repository')" = false) as ->
    by reflexivity.
  plumb. rewrite <- !app_assoc. reflexivity.
Qed.

(** X20.  A [chatMessage] call for a task that is not active does not
    end like other failures.  The error raised by [rpcChatMessage] is
    replaced: reporting it to the transcript fails on the missing task,
    so the call is rejected with that [TypeError]; the status message
    ["Starting up"] posted at the start is not reset, and the failure is
    not captured. *)
Theorem chat_with_inactive_task params st :
  tasks st !! taskId params = None →
  handleRPCCall forwarded "chatMessage" params st
  = ({| git := git st; tasks := tasks st;
        outbox := outbox st
          ++ [PostNotification (StatusMessage "Starting up");
              ShowErrorMessage
                ("Melty internal error: "
                 +:+ ("Tried to chat with an inactive task " +:+ taskId params
                      +:+ " (active task is " +:+ getActiveTaskId (tasks st) +:+ ")")
                 +:+ ". Please try again.");
              ConsoleWarn ("Couldn't notify webview of error because task "
                           +:+ taskId params +:+ " was not active")] |},
     Throw (TypeError "Cannot read properties of null (reading 'addErrorJoule')")).
Proof.
  intros Hinactive. unfold handleRPCCall, try_. rewrite dispatch_chatMessage.
  unfold rpcChatMessage, notifyWebviewOfChatError. plumb. rewrite Hinactive. plumb.
  assert (∀ s, String.eqb ("Tried to chat with an inactive task " +:+ s)
                 "Cannot read properties of null (reading 'repository')" = false)
    as Hnotice by reflexivity.
  cbn [errorMessage]. rewrite Hnotice, String.eqb_refl. plumb. rewrite Hinactive. plumb.
  rewrite <- !app_assoc. reflexivity.
Qed.

(** The chat turn when the human message cannot be taken in. *)
Lemma rpcChatMessage_human_failure text taskId st t t1 e :
  tasks st !! taskId = Some t →
  respondHuman t text = (t1, Throw e) →
  rpcChatMessage text taskId st
  = ({| git := git st; tasks := <[taskId := t1]> (tasks st);
        outbox := outbox st ++ [PostNotification (StatusMessage "Starting up")] |},
     Throw e).
Proof. intros Ht Hh. unfold rpcChatMessage. plumb. rewrite Ht, Hh. by plumb. Qed.

(** The failed human turn, in full. *)
Lemma handleRPCCall_human_failure params st t t1 e :
  tasks st !! taskId params = Some t →
  respondHuman t (text params) = (t1, Throw e) →
  handleRPCCall forwarded "chatMessage" params st
  = ({| git := git st;
        tasks := <[taskId params := addErrorJoule t1 (errorMessage e)]> (tasks st);
        outbox := outbox st
          ++ [PostNotification (StatusMessage "Starting up");
              ShowErrorMessage (error_notice (errorMessage e));
              push_task (addErrorJoule t1 (errorMessage e));
              PostNotification StatusReset;
              PosthogCapture (errorMessage e);
              ConsoleLog "posthog event captured!"] |},
     Throw e).
Proof.
  intros Ht Hh. unfold handleRPCCall, try_, error_notice.
  rewrite dispatch_chatMessage. unfold mbind at 1, M_bind at 1.
  rewrite (rpcChatMessage_human_failure _ _ _ t t1 e Ht Hh).
  unfold notifyWebviewOfChatError. rewrite String.eqb_refl.
  destruct (String.eqb (errorMessage e) _); plumb;
    rewrite lookup_insert_eq; plumb;
    rewrite insert_insert_eq, <- !app_assoc; reflexivity.
Qed.

(** X21.  When [respondHuman] fails in a [chatMessage] call on an active
    task, the bot is not asked: nothing of the conversation is pushed
    before the failure, the Error turn is appended to the task as
    [respondHuman] left it and pushed, the status message is reset, and
    the call is rejected with the error. *)
Theorem human_turn_failure_reported params st t t1 e :
  tasks st !! taskId params = Some t →
  respondHuman t (text params) = (t1, Throw e) →
  let failed := addErrorJoule t1 (errorMessage e) in
  let st' := (handleRPCCall forwarded "chatMessage" params st).1 in
  tasks st' !! taskId params = Some failed
  ∧ conversation failed
    = conversation t1 ++ [{| author := ErrorTurn; content := errorMessage e |}]
  ∧ List.filter posted (drop (length (outbox st)) (outbox st'))
    = [PostNotification (StatusMessage "Starting up");
       push_task failed;
       PostNotification StatusReset]
  ∧ (handleRPCCall forwarded "chatMessage" params st).2 = Throw e.
Proof.
  intros Ht Hh failed st'. subst failed st'.
  rewrite (handleRPCCall_human_failure params st t t1 e Ht Hh). cbn [fst snd tasks outbox].
  split_and!; [by rewrite lookup_insert_eq|done| |done].
  by rewrite drop_app_length.
Qed.

(** X22.  For an active task the status message never stays on: however
    the human and the bot turn go, [handleRPCCall] posts a status reset,
    and after it nothing more goes out on the transport. *)
Theorem active_chat_resets_status params st t :
  tasks st !! taskId params = Some t →
  ∃ before after,
    outbox (handleRPCCall forwarded "chatMessage" params st).1
    = outbox st ++ before ++ PostNotification StatusReset :: after
    ∧ Forall (λ o, posted o = false) after.
Proof.
  intros Ht.
  destruct (respondHuman t (text params)) as [t1 [[]|e]] eqn:Hh.
  - destruct (outcome (respondBot t1)) as [[]|e] eqn:Hbot.
    + exists ([PostNotification (StatusMessage "Starting up"); push_task t1]
              ++ List.map (λ p, push_task (progress_snapshot p)) (progress (respondBot t1))
              ++ [push_task (after (respondBot t1))]), [].
      split; [|done].
      unfold handleRPCCall, try_. rewrite dispatch_chatMessage.
      unfold mbind at 1, M_bind at 1.
      rewrite (rpcChatMessage_run _ _ _ t t1 Ht Hh), Hbot. plumb.
      by rewrite <- !app_assoc.
    + destruct (handleRPCCall_chat_failure forwarded params st t t1 e Ht Hh Hbot)
        as (notice & ->). cbn [fst outbox].
      exists ([PostNotification (StatusMessage "Starting up"); push_task t1]
              ++ List.map (λ p, push_task (progress_snapshot p)) (progress (respondBot t1))
              ++ [ShowErrorMessage notice;
                  push_task (addErrorJoule (after (respondBot t1)) (errorMessage e))]),
             [PosthogCapture (errorMessage e); ConsoleLog "posthog event captured!"].
      split; [|by repeat constructor]. by rewrite <- !app_assoc.
  - rewrite (handleRPCCall_human_failure params st t t1 e Ht Hh). cbn [fst outbox].
    exists [PostNotification (StatusMessage "Starting up");
            ShowErrorMessage (error_notice (errorMessage e));
            push_task (addErrorJoule t1 (errorMessage e))],
           [PosthogCapture (errorMessage e); ConsoleLog "posthog event captured!"].
    split; [reflexivity|by repeat constructor].
Qed.

(** X23.  The [getLatestCommit] call cannot fail: it answers with the
    hash of the bound repository's [HEAD], and with [undefined] when the
    adapter is unbound or there is no commit; no notification is raised
    and the tasks are not touched. *)
Theorem getLatestCommit_call_never_fails params st :
  (handleRPCCall forwarded "getLatestCommit" params st).2
  = Ok (of_optional (GitManager.head_hash (git st)))
  ∧ tasks (handleRPCCall forwarded "getLatestCommit" params st).1 = tasks st
  ∧ outbox (handleRPCCall forwarded "getLatestCommit" params st).1 = outbox st.
Proof.
  destruct (GitManagerFacts.getLatestCommitHash_spec (git st)) as (es & Hlatest & _).
  unfold handleRPCCall, try_, dispatch. cbn [String.eqb Ascii.eqb Bool.eqb].
  unfold rpcGetLatestCommit. plumb. by rewrite Hlatest.
Qed.

End facts.
End HelloWorldPanelExtFacts.

(** ** The two ends of the bridge, connected *)

Module BridgeFacts.
Import HelloWorldPanel HelloWorldPanelFacts Bridge.
Section facts.
Context {R : Type} `{GitManager.GitApi R} `{TaskBackend}.
Variable forwarded : string → Params → M (Panel R) Value.
Implicit Types (client : @RpcClient.State) (host : Panel R).

(** The client, handed a response with the id of the call it just
    made. *)
Lemma response_settles_the_call client method (params : Wire)
    (answer : RpcClient.MessageData Wire) :
  RpcClient.type answer = "rpcResponse" →
  RpcClient.id answer = RpcClient.messageId client + 1 →
  let '(promise, client1, _) := RpcClient.run client method params in
  RpcClient.settlements promise (RpcClient.handleMessage client1 answer).2
  = [RpcClient.settle promise answer]
  ∧ RpcClient.pendingMessages (RpcClient.handleMessage client1 answer).1
      !! RpcClient.messageId client1 = None.
Proof.
  intros Htype Hid. cbn [RpcClient.run].
  unfold RpcClient.handleMessage. rewrite Htype, Hid. cbn. rewrite lookup_insert_eq.
  unfold RpcClient.settle.
  destruct (truthy (RpcClient.error answer)); cbn; rewrite Nat.eqb_refl;
    (split; [done|apply lookup_delete_eq]).
Qed.

(** X24.  A call makes the round trip.  What [run] posts reaches the
    listener as an [rpc] message with the call's id.  With [DEV_MODE]
    off, and unless the handler threw [null] or [undefined], the
    listener returns, the last thing it posts is the [rpcResponse] with
    that id, and handling that response settles the promise [run]
    returned and removes the pending entry: the promise is resolved with
    the handler's result, rejected with the message of what it threw,
    and resolved with [undefined] when what it threw has no message or
    an empty one.  When the handler threw [null] or [undefined], reading
    [error.message] throws a [TypeError] in the listener: it adds
    nothing to what the handler did, no response is posted, and the call
    stays pending. *)
Theorem call_round_trip client host method params :
  let '(promise, client1, sent) := RpcClient.run client method (WParams params) in
  ∃ message,
    omap to_host sent = [message]
    ∧ msg_id message = RpcClient.messageId client1
    ∧ let listened := onDidReceiveMessage false forwarded message host in
      match expected_settlement promise (handler_outcome forwarded message host) with
      | Some settlement =>
          ∃ response answer,
            listened.2 = Ok ()
            ∧ last (outbox listened.1) = Some response
            ∧ to_webview response = Some answer
            ∧ RpcClient.settlements promise (RpcClient.handleMessage client1 answer).2
              = [settlement]
            ∧ RpcClient.pendingMessages (RpcClient.handleMessage client1 answer).1
                !! RpcClient.messageId client1 = None
      | None =>
          listened.1 = (handler_run forwarded message host).1
          ∧ (∃ unreadable, listened.2 = Throw (TypeError unreadable))
          ∧ RpcClient.pendingMessages client1 !! RpcClient.messageId client1
            = Some promise
      end.
Proof.
  pose proof (response_settles_the_call client method (WParams params)) as Hsettles.
  cbn [RpcClient.run omap to_host] in *.
  set (i := (RpcClient.messageId client + 1)%Z) in *.
  set (message := {| msg_type := "rpc"; msg_id := i; msg_method := method;
                     msg_params := params |}).
  exists message. split_and!; [done|done|]. cbv zeta.
  unfold handler_outcome, handler_run.
  rewrite (onDidReceiveMessage_rpc false forwarded message host eq_refl).
  destruct (handleRPCCall forwarded (msg_method message) (msg_params message) _)
    as [host1 [value|error]]; cbn [fst snd outbox expected_settlement].
  - exists (PostRpcResponse method i (Some value) None),
      {| RpcClient.type := "rpcResponse"; RpcClient.id := i;
         RpcClient.result := Some (WValue value); RpcClient.error := None |}.
    split_and!; [done|by rewrite last_app|done|..]; by apply Hsettles.
  - destruct error as [text|text| | |rendering [text|]]; cbn [message_field fst snd outbox].
    1, 2, 5, 6:
      match goal with
      | |- context [PostRpcResponse _ _ None ?heard] =>
          exists (PostRpcResponse method i None heard),
            {| RpcClient.type := "rpcResponse"; RpcClient.id := i;
               RpcClient.result := None; RpcClient.error := heard |};
          destruct (Hsettles {| RpcClient.type := "rpcResponse"; RpcClient.id := i;
                                 RpcClient.result := None; RpcClient.error := heard |}
                             eq_refl eq_refl) as [Hsettled Hgone]
      end;
      (split_and!; [done|by rewrite last_app|done| |done]);
      rewrite Hsettled; unfold RpcClient.settle; cbn [RpcClient.error truthy default];
      try done; by destruct (String.eqb text "").
    all: split_and!; [done|by eexists|apply lookup_insert_eq].
Qed.

(** Pushes are not responses. *)
Lemma pushes_are_not_responses (snapshots : list Task) :
  omap to_webview (List.map push_task snapshots) = [].
Proof. by induction snapshots. Qed.

(** X25.  With [DEV_MODE] on, a [chatMessage] call whose bot turn fails
    is never answered: the listener rethrows the error and nothing it
    posted is an [rpcResponse], so the promise of the call stays
    pending in the webview. *)
Theorem dev_mode_failure_is_never_answered message host t t1 e :
  msg_type message = "rpc" → msg_method message = "chatMessage" →
  tasks host !! taskId (msg_params message) = Some t →
  respondHuman t (text (msg_params message)) = (t1, Ok ()) →
  outcome (respondBot t1) = Throw e →
  let listened := onDidReceiveMessage true forwarded message host in
  listened.2 = Throw e ∧ responses_since host listened.1 = [].
Proof.
  intros Htype Hmethod Ht Hh He listened. subst listened.
  rewrite onDidReceiveMessage_rpc, Hmethod by done.
  set (host0 := {| git := git host; tasks := tasks host; outbox := outbox host ++ _ |}).
  destruct (handleRPCCall_chat_failure forwarded (msg_params message) host0 t t1 e Ht Hh He)
    as (notice & ->).
  split; [done|]. unfold responses_since. cbn [fst outbox host0].
  rewrite <- app_assoc, drop_app_length, !omap_app.
  rewrite <- (List.map_map progress_snapshot push_task), pushes_are_not_responses.
  reflexivity.
Qed.

End facts.
End BridgeFacts.

(** ** The further statements at work on concrete inputs *)

Module ScenarioExtFacts.
Import GitManager HelloWorldPanel Scenario ScenarioExt.

(** *** The bridge *)

(** The pending call is answered; a second answer with its id finds
    nothing. *)
Lemma duplicate_response_dropped_witness :
  RpcClient.handleMessage (RpcClient.handleMessage one_pending answer).1 again
  = ((RpcClient.handleMessage one_pending answer).1,
     [RpcClient.LogReceived 1; RpcClient.WarnUnknown 1]).
Proof.
  assert (is_Some (RpcClient.pendingMessages one_pending !! RpcClient.id answer))
    as Hpending by (exists 0%nat; reflexivity).
  exact (proj2 (RpcClientExtFacts.duplicate_response_dropped one_pending answer again
                  eq_refl Hpending eq_refl eq_refl)).
Defined.

(** A handler throws [null]: the listener fails on [error.message] and
    the webview hears nothing. *)
Example thrown_null_is_never_answered :
  let listened := onDidReceiveMessage false throws_null list_files (panel [c1] true) in
  listened.2 = Throw (TypeError "Cannot read properties of null (reading 'message')")
  ∧ Bridge.responses_since (panel [c1] true) listened.1 = []
  ∧ Bridge.expected_settlement 0%nat
      (Bridge.handler_outcome throws_null list_files (panel [c1] true)) = None.
Proof. by vm_compute. Qed.

(** A failing chat under [DEV_MODE]. *)
Lemma dev_mode_failure_is_never_answered_witness :
  (onDidReceiveMessage true no_forward (chat "fail") (panel [c1] true)).2
  = Throw (JsError "model unavailable")
  ∧ Bridge.responses_since (panel [c1] true)
      (onDidReceiveMessage true no_forward (chat "fail") (panel [c1] true)).1
    = [].
Proof.
  assert (tasks (panel [c1] true) !! taskId (msg_params (chat "fail")) = Some t1)
    as Hactive by reflexivity.
  assert (respondHuman t1 (text (msg_params (chat "fail"))) = (failing, Ok ()))
    as Hhuman by reflexivity.
  assert (outcome (respondBot failing) = Throw (JsError "model unavailable"))
    as Hbot by reflexivity.
  exact (BridgeFacts.dev_mode_failure_is_never_answered no_forward (chat "fail")
           (panel [c1] true) t1 failing (JsError "model unavailable")
           eq_refl eq_refl Hactive Hhuman Hbot).
Defined.

(** *** The adapter *)

Lemma unbound_adapter_answers_with_sentinels_witness :
  (undoLastCommit "c1" (world [c1] false)).2
  = Ok (Some "The specified commit is not the latest commit. Cannot undo.")
  ∧ (repoIsClean (world [c1] false)).2 = Ok false
  ∧ (checkoutBranch "main" (world [c1] false)).2 = Ok false.
Proof.
  destruct (GitManagerExtFacts.unbound_adapter_answers_with_sentinels
              (world [c1] false) "c1" None "main" "c1" eq_refl)
    as (_ & [? ->] & _ & _ & [? ->] & _ & [? ->] & _).
  done.
Defined.

(** The adapter is bound to the repository at the workspace root, the
    second of the extension; the undo of its latest commit resets the
    sibling checkout. *)
Lemma undo_resets_the_first_repository_witness :
  let w' := (undoLastCommit "c2" two_repositories).1 in
  history (heap w' 0%nat) = [c1]
  ∧ history (heap w' 1%nat) = [c2; c1]
  ∧ (undoLastCommit "c2" two_repositories).2 = Ok None.
Proof.
  assert (1%nat ≠ 0%nat) as Hne by lia.
  assert (head_hash two_repositories = Some "c2") as Hlatest by reflexivity.
  destruct (GitManagerExtFacts.undo_resets_the_first_repository
              "c2" two_repositories 1%nat 0%nat [1%nat] eq_refl eq_refl Hne Hlatest)
    as (Hfirst & Hbound & _ & Hanswer).
  cbv zeta. rewrite Hfirst, Hbound, (Hanswer eq_refl). done.
Defined.

Lemma getUdiffFromCommit_joins_file_diffs_witness :
  getUdiffFromCommit None (world [c2; c1] true)
  = (world [c2; c1] true,
     Ok ("c2^..c2 /ws/a.ts" +:+ newline +:+ "c2^..c2 /ws/b.ts")).
Proof.
  exact (GitManagerExtFacts.getUdiffFromCommit_joins_file_diffs
           None (world [c2; c1] true) 0%nat c2 "c2" c2 "c1"
           [{| uri_fsPath := "/ws/a.ts"; gitIgnored := false |};
            {| uri_fsPath := "/ws/b.ts"; gitIgnored := false |}]
           ["c2^..c2 /ws/a.ts"; "c2^..c2 /ws/b.ts"]
           eq_refl eq_refl eq_refl eq_refl eq_refl eq_refl eq_refl).
Defined.

Lemma commitLocalChanges_commits_iff_staged_witness :
  (commitLocalChanges commit_message dirty_world).2 = Ok 1%nat
  ∧ ∃ r message,
      repo dirty_world = Some r
      ∧ List.filter GitManagerExt.is_commit
          (GitManagerExt.since dirty_world
             (commitLocalChanges commit_message dirty_world).1)
        = [CallCommit r ("[via melty] " +:+ message)].
Proof.
  assert ((commitLocalChanges commit_message dirty_world).2 = Ok 1%nat) as Hone
    by reflexivity.
  split; [done|].
  exact (proj2 (GitManagerExtFacts.commitLocalChanges_commits_iff_staged
                  commit_message dirty_world 1%nat Hone) (Nat.lt_0_succ 0)).
Defined.

(** The ignored [out.log] is not among the staged paths. *)
Lemma commitLocalChanges_stages_unignored_changes_witness :
  CallAdd 0%nat ["/ws/a.ts"]
  ∈ GitManagerExt.since dirty_world (commitLocalChanges commit_message dirty_world).1
  ∧ ∃ changes,
      diffWithHEAD (status (heap dirty_world 0%nat)).1 = Ok changes
      ∧ ["/ws/a.ts"]
        = List.map uri_fsPath
            (List.filter (λ change, negb (gitIgnored change)) changes).
Proof.
  assert (CallAdd 0%nat ["/ws/a.ts"]
          ∈ GitManagerExt.since dirty_world
              (commitLocalChanges commit_message dirty_world).1) as Hadd
    by (vm_compute; repeat constructor).
  split; [done|].
  exact (proj2 (GitManagerExtFacts.commitLocalChanges_stages_unignored_changes
                  commit_message dirty_world 0%nat ["/ws/a.ts"] Hadd)).
Defined.

Lemma commitChangeSet_writes_nothing_without_status_witness :
  let answered := GitManagerRest.commitChangeSet absolute write_files edit_a "edit a"
                    (manager [c1] false) in
  answered.2 = Ok VNull
  ∧ List.filter GitManagerRest.is_write
      (GitManagerRest.since (manager [c1] false) answered.1) = [].
Proof.
  exact (GitManagerRestFacts.commitChangeSet_writes_nothing_without_status
           absolute write_files edit_a "edit a" (manager [c1] false)
           (or_introl eq_refl)).
Defined.

(** The working tree has uncommitted changes: a warning, and the commit
    is made all the same. *)
Lemma commitChangeSet_applies_stages_commits_witness :
  let answered := GitManagerRest.commitChangeSet absolute write_files edit_a "edit a"
                    unclean_manager in
  GitManagerRest.unchanged dirty = false
  ∧ answered.2 = Ok (VString "h:[by melty] edit a")
  ∧ GitManagerRest.since unclean_manager answered.1
    = [GitManagerRest.Git (CallStatus 0%nat);
       GitManagerRest.ConsoleWarn "Committing changeset despite unclean repo";
       GitManagerRest.ApplyChangeSet ["a.ts"] "/ws";
       GitManagerRest.Git (CallAdd 0%nat ["/ws/a.ts"]);
       GitManagerRest.CallCommitAllowingEmpty 0%nat "[by melty] edit a";
       GitManagerRest.Git (CallStatus 0%nat)]
  ∧ ∃ r, GitManagerRest.repo unclean_manager = Some r
         ∧ List.filter GitManagerRest.is_write
             (GitManagerRest.since unclean_manager answered.1)
           = [GitManagerRest.ApplyChangeSet ["a.ts"] "/ws";
              GitManagerRest.Git (CallAdd r ["/ws/a.ts"]);
              GitManagerRest.CallCommitAllowingEmpty r "[by melty] edit a"].
Proof.
  cbv zeta.
  assert ((GitManagerRest.commitChangeSet absolute write_files edit_a "edit a"
             unclean_manager).2 ≠ Ok VNull) as Hanswer
    by (vm_compute; congruence).
  destruct (GitManagerRestFacts.commitChangeSet_applies_stages_commits
              absolute write_files edit_a "edit a" unclean_manager)
    as [Hwrites Hthrough].
  edestruct (Hthrough 0%nat) as [Hanswered Hlog]; [reflexivity..|].
  split_and!; [reflexivity|exact Hanswered|exact Hlog|exact (Hwrites Hanswer)].
Defined.

Lemma commitChangeSet_never_rolls_back_witness :
  List.filter GitManagerRest.is_undo
    (GitManagerRest.since (manager [c1] true)
       (GitManagerRest.commitChangeSet absolute write_files edit_a "edit a"
          (manager [c1] true)).1)
  = [].
Proof.
  exact (proj1 (GitManagerRestFacts.commitChangeSet_never_rolls_back
                  absolute write_files edit_a "edit a" (manager [c1] true) 0%nat
                  eq_refl)).
Defined.

(** The first tick finds the extension without repositories; the
    repository that appears afterwards is never bound. *)
Lemma poller_tries_init_once_witness :
  let m' := GitManagerRest.host_run waiting (GitManagerRest.Tick :: repository_appears) in
  GitManagerRest.polling m' = false
  ∧ GitManagerRest.repo m' = None
  ∧ GitManagerRest.log m'
    = [GitManagerRest.Git
         (ConsoleError "Error initializing git repository: No git repositories found")].
Proof.
  assert (is_Some (GitManagerRest.gitExtension waiting)) as Hextension
    by (exists []; reflexivity).
  destruct (GitManagerRestFacts.poller_tries_init_once waiting repository_appears
              eq_refl Hextension) as (Hstopped & Hrepo & Hlog & Hreported).
  destruct (Hreported "No git repositories found" eq_refl) as [Hrepo1 Hlog1].
  cbv zeta. rewrite Hstopped, Hrepo, Hlog, Hrepo1, Hlog1. done.
Defined.

(** *** The panel *)

Lemma unknown_method_is_rejected_witness :
  (handleRPCCall no_forward "renameTask" empty_chat (panel [c1] true)).2
  = Throw (JsError "Unknown RPC method: renameTask").
Proof.
  assert ("renameTask" ∉ HelloWorldPanelExt.known_methods) as Hunknown.
  { intros Hin. apply list_elem_of_In in Hin. cbn in Hin. intuition discriminate. }
  rewrite (HelloWorldPanelExtFacts.unknown_method_is_rejected no_forward "renameTask"
             empty_chat (panel [c1] true) Hunknown).
  reflexivity.
Defined.

Lemma chat_with_inactive_task_witness :
  (handleRPCCall no_forward "chatMessage" to_other_task (panel [c1] true)).2
  = Throw (TypeError "Cannot read properties of null (reading 'addErrorJoule')")
  ∧ List.filter posted
      (outbox (handleRPCCall no_forward "chatMessage" to_other_task (panel [c1] true)).1)
    = [PostNotification (StatusMessage "Starting up")].
Proof.
  assert (tasks (panel [c1] true) !! taskId to_other_task = None) as Hinactive
    by reflexivity.
  rewrite (HelloWorldPanelExtFacts.chat_with_inactive_task no_forward to_other_task
             (panel [c1] true) Hinactive).
  split; reflexivity.
Defined.

(** The backend refuses the empty message. *)
Lemma human_turn_failure_reported_witness :
  let answered := @handleRPCCall Repo repo_api strict_backend no_forward "chatMessage"
                    empty_chat (panel [c1] true) in
  answered.2 = Throw (JsError "empty message")
  ∧ List.filter posted (outbox answered.1)
    = [PostNotification (StatusMessage "Starting up");
       push_task (addErrorJoule t1 "empty message");
       PostNotification StatusReset].
Proof.
  assert (tasks (panel [c1] true) !! taskId empty_chat = Some t1) as Hactive
    by reflexivity.
  destruct (@HelloWorldPanelExtFacts.human_turn_failure_reported Repo repo_api
              strict_backend no_forward empty_chat (panel [c1] true) t1 t1
              (JsError "empty message") Hactive eq_refl)
    as (_ & _ & Hposted & Hanswer).
  split; [exact Hanswer|exact Hposted].
Defined.

Lemma active_chat_resets_status_witness :
  ∃ before after,
    outbox (handleRPCCall no_forward "chatMessage" (msg_params (chat "hello"))
              (panel [c1] true)).1
    = before ++ PostNotification StatusReset :: after
    ∧ Forall (λ o, posted o = false) after.
Proof.
  assert (tasks (panel [c1] true) !! taskId (msg_params (chat "hello")) = Some t1)
    as Hactive by reflexivity.
  exact (HelloWorldPanelExtFacts.active_chat_resets_status no_forward
           (msg_params (chat "hello")) (panel [c1] true) t1 Hactive).
Defined.

End ScenarioExtFacts.
